(** * check_missing: header/binding signature audit

    A shallow embedding of [sys/check_missing/check_missing.py], the script
    that compares the functions exported by [geos_c.h] with the [extern]
    declarations of [src/functions.rs].

    Conventions of the embedding.
    - A Python [str] is a [string]; characters are the code points below
      256.  Texts with code points above 255 are outside the model.
    - A file is given as the list of its lines, as returned by
      [f.read().splitlines()].
    - An uncaught Python exception is the outcome [Raise]; a [while] loop
      whose termination is not structural runs on fuel and yields
      [Timeout] when the fuel is used up.
    - [print] appends one entry to the list of printed records. *)

From Stdlib Require Import Ascii String.
From stdpp Require Import base option list gmap strings sorting.

(** ** Outcomes *)

Inductive exn : Type :=
| IndexError
| KeyError
| AttributeError.

Inductive result (A : Type) : Type :=
| Ok (a : A)
| Raise (e : exn)
| Timeout.

Arguments Ok {A} a.
Arguments Raise {A} e.
Arguments Timeout {A}.

Definition rbind {A B} (m : result A) (k : A → result B) : result B :=
  match m with
  | Ok a => k a
  | Raise e => Raise e
  | Timeout => Timeout
  end.

#[global] Instance result_bind : MBind result := λ A B k m, rbind m k.

Definition of_option {A} (e : exn) (o : option A) : result A :=
  match o with
  | Some a => Ok a
  | None => Raise e
  end.

(** ** Python string primitives *)

Module Py.

(** [str.isspace] on the code points below 256. *)
Definition isspace (c : ascii) : bool :=
  let n := nat_of_ascii c in
  ((9 <=? n) && (n <=? 13)) || ((28 <=? n) && (n <=? 32))
  || (n =? 133) || (n =? 160).

Fixpoint lstrip (s : string) : string :=
  match s with
  | "" => ""
  | String c s' => if isspace c then lstrip s' else s
  end.

Fixpoint rstrip (s : string) : string :=
  match s with
  | "" => ""
  | String c s' =>
      match rstrip s' with
      | "" => if isspace c then "" else String c ""
      | r => String c r
      end
  end.

(** [s.strip()] *)
Definition strip (s : string) : string := rstrip (lstrip s).

(** [s.startswith(p)] *)
Fixpoint startswith (s p : string) : bool :=
  match p with
  | "" => true
  | String b p' =>
      match s with
      | "" => false
      | String a s' => if Ascii.eqb a b then startswith s' p' else false
      end
  end.

(** [s.endswith(p)]: some suffix of [s] is [p]. *)
Fixpoint endswith (s p : string) : bool :=
  String.eqb s p ||
  match s with
  | "" => false
  | String _ s' => endswith s' p
  end.

(** [p in s] *)
Fixpoint contains (s p : string) : bool :=
  startswith s p ||
  match s with
  | "" => false
  | String _ s' => contains s' p
  end.

(** [s.split(sep)] for a nonempty separator: a left-to-right scan for
    non-overlapping occurrences.  [skip] counts the characters of an
    occurrence that are still to be passed over. *)
Fixpoint split_go (sep : string) (skip : nat) (s : string) : list string :=
  match s with
  | "" => [""]
  | String c s' =>
      match skip with
      | S k => split_go sep k s'
      | O =>
          if startswith s sep
          then "" :: split_go sep (String.length sep - 1) s'
          else match split_go sep 0 s' with
               | h :: t => String c h :: t
               | [] => [String c ""]
               end
      end
  end.

Definition split (s sep : string) : list string := split_go sep 0 s.

(** [s.replace(old, new)] for a nonempty [old]. *)
Fixpoint replace_go (old new : string) (skip : nat) (s : string) : string :=
  match s with
  | "" => ""
  | String c s' =>
      match skip with
      | S k => replace_go old new k s'
      | O =>
          if startswith s old
          then new +:+ replace_go old new (String.length old - 1) s'
          else String c (replace_go old new 0 s')
      end
  end.

Definition replace (s old new : string) : string := replace_go old new 0 s.

(** [sep.join(l)] *)
Fixpoint join (sep : string) (l : list string) : string :=
  match l with
  | [] => ""
  | [x] => x
  | x :: l' => x +:+ sep +:+ join sep l'
  end.

(** [s[:-n]] for [n > 0] *)
Definition drop_last (n : nat) (s : string) : string :=
  String.substring 0 (String.length s - n) s.

(** [l.pop()] on a list: the list without its last element, and that
    element; [None] on the empty list. *)
Fixpoint pop {A} (l : list A) : option (list A * A) :=
  match l with
  | [] => None
  | [x] => Some ([], x)
  | x :: l' =>
      match pop l' with
      | Some (r, y) => Some (x :: r, y)
      | None => None
      end
  end.

(** [x.sort()] on strings: the order is the code-point order. *)
Definition sort (l : list string) : list string := merge_sort String.le l.

End Py.

(** ** The script *)

(** A C signature as stored in the table: the parameter types and the
    return type, both as raw C type strings. *)
Abbreviation c_sig := (list string * string)%type.

Definition TO_IGNORE : list string :=
  [ "initGEOS_r"; "finishGEOS_r";
    "GEOSGeomFromWKT"; "GEOSGeomFromWKT_r";
    "GEOSGeomToWKT"; "GEOSGeomToWKT_r";
    "GEOSSingleSidedBuffer"; "GEOSSingleSidedBuffer_r";
    "GEOSUnionCascaded"; "GEOSUnionCascaded_r" ].

(** [for x in l: body], with the loop state passed along. *)
Fixpoint for_each {A St} (l : list A) (body : A → St → result St) (st : St)
  : result St :=
  match l with
  | [] => Ok st
  | x :: l' => st' ← body x st; for_each l' body st'
  end.

(** [x[i]] on a list *)
Definition index {A} (l : list A) (i : nat) : result A :=
  of_option IndexError (l !! i).

(** [params.pop()] where [params] is a [str]: [str] has no such method. *)
Definition str_pop (params : string) : result string := Raise AttributeError.

(** *** get_c_args *)

(** [while ty_name.endswith('[]'): params += ' *const';
    ty_name = ty_name[:-2].strip()].  Each turn shortens [ty_name], so
    its length is fuel enough ([array_loop_no_timeout]). *)
Fixpoint array_loop (fuel : nat) (params ty_name : string)
  : result (string * string) :=
  if Py.endswith ty_name "[]" then
    match fuel with
    | O => Timeout
    | S fuel' =>
        array_loop fuel' (params +:+ " *const")
                   (Py.strip (Py.drop_last 2 ty_name))
    end
  else Ok (params, ty_name).

(** [while name.startswith('*'): ty += '*'; name = name[1:]], the loop of
    both [get_c_args] and [get_c_functions]; [name'] is [name[1:]]. *)
Fixpoint star_loop (ty name : string) : string * string :=
  match name with
  | "" => (ty, name)
  | String _ name' =>
      if Py.startswith name "*" then star_loop (ty +:+ "*") name'
      else (ty, name)
  end.

Definition get_c_args_part (part : string) (args : list string)
  : result (list string) :=
  let part := Py.strip part in
  if String.length part =? 0 then Ok args
  else
    '(params, ty_name) ← of_option IndexError (Py.pop (Py.split part " "));
    let params := Py.join " " params in
    '(params, ty_name) ← array_loop (String.length ty_name) params ty_name;
    ty_name ← (if String.length ty_name =? 0 then str_pop params
               else Ok ty_name);
    let '(params, ty_name) := star_loop params ty_name in
    Ok (args ++ [Py.strip (Py.replace params " * const" " *const")]).

Definition get_c_args (text : string) (args : list string)
  : result (list string) :=
  for_each (Py.split text ",") get_c_args_part args.

(** *** get_rust_args *)

Definition get_rust_args_part (part : string) (args : list string)
  : list string :=
  let part := Py.strip part in
  if String.length part =? 0 then args
  else
    let params := drop 1 (Py.split part ":") in
    args ++ [Py.join " "
               (filter (λ x, 0 < String.length x) (Py.strip <$> params))].

Definition get_rust_args (text : string) (args : list string) : list string :=
  foldl (λ args part, get_rust_args_part part args) args (Py.split text ",").

(** *** get_rust_ret_type *)

Definition get_rust_ret_type (text : string) : result string :=
  if negb (Py.contains text ") -> ") then Ok ""
  else
    after ← index (Py.split text ") -> ") 1;
    index (Py.split after ";") 0.

(** *** convert_c_to_rust *)

(** A dict literal, as its list of items. *)
Fixpoint dict_get (d : list (string * string)) (k : string) : option string :=
  match d with
  | [] => None
  | (k', v) :: d' => if String.eqb k' k then Some v else dict_get d' k
  end.

Definition inline_conv : list (string * string) :=
  [ ("int", "c_int"); ("char", "c_char"); ("void", "c_void");
    ("double", "c_double"); ("float", "c_float") ].

Definition unsigned_inline_conv : list (string * string) :=
  [ ("int", "c_uint"); ("char", "c_uchar");
    ("c_int", "c_uint"); ("c_char", "c_uchar") ].

(** [inline_conv.get(t, t)] *)
Definition substitute (t : string) : string :=
  default t (dict_get inline_conv t).

(** The first loop: [parts] is [parts[pos:]]. *)
Fixpoint const_loop (pos : nat) (parts : list string) (is_const : bool)
    (complete_type : list string) : bool * list string :=
  match parts with
  | [] => (is_const, complete_type)
  | p :: parts' =>
      if String.eqb p "const"
      then const_loop (S pos) parts'
             (if pos =? 0 then true else is_const) complete_type
      else const_loop (S pos) parts' is_const (complete_type ++ [p])
  end.

(** [while complete_type[len(complete_type) - 1].endswith('*')].  Each
    turn shortens the last token, so its length is fuel enough
    ([pointer_loop_no_timeout]). *)
Fixpoint pointer_loop (fuel : nat) (is_const : bool)
    (complete_type : list string) : result (list string) :=
  '(init, last) ← of_option IndexError (Py.pop complete_type);
  if Py.endswith last "*" then
    match fuel with
    | O => Timeout
    | S fuel' =>
        pointer_loop fuel' is_const
          ((if is_const then "*const" else "*mut")
             :: init ++ [Py.strip (Py.drop_last 1 last)])
    end
  else Ok complete_type.

(** [while complete_type[-1].endswith('*const')].  This loop need not
    leave, and runs on the fuel given to the translator. *)
Fixpoint marker_loop (fuel : nat) (complete_type : list string)
  : result (list string) :=
  '(init, last) ← of_option IndexError (Py.pop complete_type);
  if Py.endswith last "*const" then
    match fuel with
    | O => Timeout
    | S fuel' =>
        let last := Py.strip (Py.drop_last 6 last) in
        let complete_type :=
          if String.length last =? 0 then init else init ++ [last] in
        marker_loop fuel' ("*const" :: complete_type)
    end
  else Ok complete_type.

(** The substitution pass: the argument is [complete_type[pos:]], the
    result what the loop leaves in that range. *)
Fixpoint subst_loop (complete_type : list string) : result (list string) :=
  match complete_type with
  | [] => Ok []
  | t :: rest =>
      if String.eqb t "unsigned" then
        match rest with
        | [] => Raise IndexError
        | u :: rest' =>
            v ← of_option KeyError (dict_get unsigned_inline_conv u);
            r ← subst_loop rest';
            Ok (v :: r)
        end
      else
        r ← subst_loop rest;
        Ok (substitute t :: r)
  end.

Definition last_len (l : list string) : nat :=
  match Py.pop l with
  | Some (_, x) => String.length x
  | None => 0
  end.

Definition convert_c_to_rust (fuel : nat) (c_type : string) : result string :=
  let parts := Py.split (Py.strip c_type) " " in
  let '(is_const, complete_type) := const_loop 0 parts false [] in
  complete_type ← pointer_loop (last_len complete_type) is_const complete_type;
  complete_type ← marker_loop fuel complete_type;
  complete_type ← subst_loop complete_type;
  Ok (Py.join " "
        (filter (λ x, 0 < String.length x) (Py.strip <$> complete_type))).

(** *** compare_rust_and_c_funcs *)

Fixpoint convert_all (fuel : nat) (c_types : list string)
  : result (list string) :=
  match c_types with
  | [] => Ok []
  | x :: c_types' =>
      y ← convert_c_to_rust fuel x;
      ys ← convert_all fuel c_types';
      Ok (y :: ys)
  end.

Definition newline : string := String "010" "".

Definition ret_msg (name c_func_ret ret_type : string) : string :=
  "[" +:+ name +:+ "]: ret types differ: `" +:+ c_func_ret +:+ "` != `"
  +:+ ret_type +:+ "`".

Definition params_msg (name c_func_args rust_args : string) : string :=
  "[" +:+ name +:+ "]: params differ:" +:+ newline +:+ "=> `" +:+ c_func_args
  +:+ "`" +:+ newline +:+ "-> `" +:+ rust_args +:+ "`".

(** The result is the returned flag and the records printed. *)
Definition compare_rust_and_c_funcs (fuel : nat) (name : string)
    (c_func : c_sig) (rust_args : list string) (ret_type : string)
  : result (bool * list string) :=
  let errors := 0 in
  let out := [] in
  converted ← convert_all fuel c_func.1;
  let c_func_args := Py.join "," converted in
  c_func_ret ← convert_c_to_rust fuel c_func.2;
  let c_func_ret := if String.eqb c_func_ret "c_void" then "" else c_func_ret in
  let '(errors, out) :=
    if negb (String.eqb c_func_ret ret_type)
    then (S errors, out ++ [ret_msg name c_func_ret ret_type])
    else (errors, out) in
  let '(errors, out) :=
    if negb (String.eqb c_func_args (Py.join "," rust_args))
    then (S errors,
          out ++ [params_msg name c_func_args (Py.join "," rust_args)])
    else (errors, out) in
  Ok (errors =? 0, out).

(** *** get_c_functions *)

(** The inner loop over the continuation lines of a declaration.  The
    argument is [content[pos:]]; the result holds [content[pos:]] for the
    value of [pos] at which the loop is left. *)
Fixpoint c_continuation (content : list string) (args : list string)
  : result (list string * list string) :=
  match content with
  | [] => Ok (args, [])
  | line :: content' =>
      text ← index (Py.split (Py.strip line) ");") 0;
      args ← get_c_args text args;
      if Py.endswith line ");" then Ok (args, content)
      else c_continuation content' args
  end.

(** The head of a declaration, from the line that holds the export
    marker: the return type, the name with its leading stars moved to the
    return type, and the text after the first parenthesis. *)
Definition c_head (line : string) : result (string * string * string) :=
  let parts := Py.split line " GEOS_DLL " in
  before ← index parts 0;
  ret_type ← index (Py.split before "extern ") 1;
  let ret_type := Py.strip ret_type in
  after ← index parts 1;
  let name_and_args := Py.split after "(" in
  func_name ← index name_and_args 0;
  let '(ret_type, func_name) := star_loop ret_type func_name in
  text ← index name_and_args 1;
  Ok (ret_type, func_name, text).

(** One declaration: the outer loop's body at a line that holds the
    export marker, up to the final [pos += 1].  [content] is
    [content[pos:]] and starts with [line]. *)
Definition c_declaration (line : string) (content : list string)
    (functions : gmap string c_sig)
  : result (list string * gmap string c_sig) :=
  '(ret_type, func_name, text) ← c_head line;
  let args := [] in
  args ← get_c_args text args;
  '(args, content) ←
    (if negb (Py.endswith text ");") then c_continuation (drop 1 content) args
     else Ok (args, content));
  let func_name := Py.strip func_name in
  let functions :=
    if (0 <? String.length func_name) && bool_decide (func_name ∉ TO_IGNORE)
    then <[func_name := (args, ret_type)]> functions
    else functions in
  Ok (content, functions).

(** One turn of the outer loop at [line]; [content'] is [content[pos+1:]].
    The result holds [content[pos:]] for the value of [pos] at the next
    test of the loop condition. *)
Definition c_body (line : string) (content' : list string)
    (functions : gmap string c_sig)
  : result (list string * gmap string c_sig) :=
  if negb (Py.contains line " GEOS_DLL ") then Ok (content', functions)
  else
    '(content, functions) ← c_declaration line (line :: content') functions;
    Ok (drop 1 content, functions).

(** The outer loop; [content] is [content[pos:]].  A turn moves [pos]
    on by at least one line, so the number of lines is fuel enough
    ([c_loop_fuel], [c_loop_no_timeout]). *)
Fixpoint c_loop (n : nat) (content : list string)
    (functions : gmap string c_sig) : result (gmap string c_sig) :=
  match content with
  | [] => Ok functions
  | line :: content' =>
      match n with
      | O => Timeout
      | S n' =>
          '(content, functions) ← c_body line content' functions;
          c_loop n' content functions
      end
  end.

(** [content] is the text of the header, by lines. *)
Definition get_c_functions (content : list string)
  : result (gmap string c_sig) :=
  c_loop (length content) content ∅.

(** *** get_rust_functions *)

(** What the scan of the bindings has built so far: the table it was
    given, which it changes in place, its own set of names, the count of
    failed comparisons, and the records printed. *)
Record rust_scan : Type := RustScan {
  rs_c_func : gmap string c_sig;
  rs_functions : gset string;
  rs_errors : nat;
  rs_printed : list string
}.

Fixpoint r_continuation (content : list string) (args : list string)
  : result (list string * list string) :=
  match content with
  | [] => Ok (args, [])
  | line :: content' =>
      text ← index (Py.split (Py.strip line) ")") 0;
      let args := get_rust_args text args in
      if Py.endswith line ");" || Py.contains line ") -> "
      then Ok (args, content)
      else r_continuation content' args
  end.

(** The head of a declaration, from the line that holds [' fn ']: the
    name and the pieces around the opening parentheses. *)
Definition r_head (line : string) : result (string * list string) :=
  after ← index (Py.split line " fn ") 1;
  let parts := Py.split after "(" in
  func_name ← index parts 0;
  Ok (Py.strip func_name, parts).

(** One declaration: the outer loop's body at a line that holds [' fn '],
    up to the final [pos += 1]. *)
Definition r_declaration (fuel : nat) (line : string) (content : list string)
    (st : rust_scan) : result (list string * rust_scan) :=
  '(func_name, parts) ← r_head line;
  match rs_c_func st !! func_name with
  | Some sig =>
      let args := [] in
      text ← index parts 1;
      text ← index (Py.split text ")") 0;
      let args := get_rust_args (Py.strip text) args in
      '(args, content) ←
        (if negb (Py.endswith line ");") && negb (Py.contains line ") -> ")
         then r_continuation (drop 1 content) args
         else Ok (args, content));
      last ← index content 0;
      ret_type ← get_rust_ret_type last;
      '(same, out) ← compare_rust_and_c_funcs fuel func_name sig args ret_type;
      Ok (content,
          {| rs_c_func := delete func_name (rs_c_func st);
             rs_functions := rs_functions st;
             rs_errors := if same : bool then rs_errors st else S (rs_errors st);
             rs_printed := rs_printed st ++ out |})
  | None =>
      Ok (content,
          if 0 <? String.length func_name
          then {| rs_c_func := rs_c_func st;
                  rs_functions := {[ func_name ]} ∪ rs_functions st;
                  rs_errors := rs_errors st;
                  rs_printed := rs_printed st |}
          else st)
  end.

Definition r_body (fuel : nat) (line : string) (content' : list string)
    (st : rust_scan) : result (list string * rust_scan) :=
  if negb (Py.contains line " fn ") then Ok (content', st)
  else
    '(content, st) ← r_declaration fuel line (line :: content') st;
    Ok (drop 1 content, st).

(** The outer loop, on [n] turns at most; the number of lines is enough
    ([r_loop_fuel]). *)
Fixpoint r_loop (fuel : nat) (n : nat) (content : list string)
    (st : rust_scan) : result rust_scan :=
  match content with
  | [] => Ok st
  | line :: content' =>
      match n with
      | O => Timeout
      | S n' =>
          '(content, st) ← r_body fuel line content' st;
          r_loop fuel n' content st
      end
  end.

Definition r_start (c_func : gmap string c_sig) : rust_scan :=
  {| rs_c_func := c_func; rs_functions := ∅; rs_errors := 0;
     rs_printed := [] |}.

(** [content] is the text of the bindings, by lines; [fuel] bounds the
    loops of the translator.  The result carries the table as the scan
    leaves it, since the caller reads it afterwards. *)
Definition get_rust_functions (fuel : nat) (content : list string)
    (c_func : gmap string c_sig) : result rust_scan :=
  r_loop fuel (length content) content (r_start c_func).

(** *** The module body *)

Record report : Type := Report {
  errored : bool;
  not_bound : list string;
  extra : list string;
  stdout : list string;
  status : nat
}.

Definition exit_status (errored : bool) (c_func : gmap string c_sig)
    (r_func : gset string) : nat :=
  if errored || (0 <? size c_func) || (0 <? size r_func) then 1
  else 0.

(** The keys of a dict, and the members of a set, in the order of a
    [for] loop; both lists are sorted before they are used. *)
Definition keys (c_func : gmap string c_sig) : list string :=
  (map_to_list c_func).*1.

Definition main (fuel : nat) (header bindings : list string) : result report :=
  c_func ← get_c_functions header;
  st ← get_rust_functions fuel bindings c_func;
  let r_func := rs_functions st in
  let errored := negb (rs_errors st =? 0) in
  let c_func := rs_c_func st in
  let x := Py.sort (keys c_func) in
  let y := Py.sort (elements r_func) in
  Ok {| errored := errored;
        not_bound := x;
        extra := y;
        stdout := rs_printed st ++ ["==> Not bound functions:"] ++ x ++ [""]
                  ++ ["==> Extra (???) rust functions:"] ++ y;
        status := exit_status errored c_func r_func |}.

(** The states of the two scans at the test of the loop condition: the
    lines from [pos] on, and what has been built. *)
Definition c_step (s1 s2 : list string * gmap string c_sig) : Prop :=
  ∃ line content', s1.1 = line :: content' ∧ c_body line content' s1.2 = Ok s2.

Definition r_step (fuel : nat) (s1 s2 : list string * rust_scan) : Prop :=
  ∃ line content', s1.1 = line :: content' ∧ r_body fuel line content' s1.2 = Ok s2.

(** ** Notions used in the statements *)

(** The characters of a string. *)
Fixpoint chars (s : string) : list ascii :=
  match s with
  | "" => []
  | String c s' => c :: chars s'
  end.

(** The names of C: letters, digits and the underscore. *)
Definition ident_char (c : ascii) : bool :=
  let n := nat_of_ascii c in
  ((48 <=? n) && (n <=? 57)) || ((65 <=? n) && (n <=? 90))
  || ((97 <=? n) && (n <=? 122)) || (n =? 95).

Definition identifier (s : string) : bool :=
  (0 <? String.length s) && forallb ident_char (chars s).

(** A text whose only white space is the space character. *)
Definition plain_spaces (s : string) : Prop :=
  ∀ c, c ∈ chars s → Py.isspace c = true → c = " "%char.

(** A token without white space and without a star. *)
Definition plain (t : string) : Prop :=
  ∀ c, c ∈ chars t → Py.isspace c = false ∧ c ≠ "*"%char.

(** The tokens that the translator joins at the end, when the two peeling
    loops leave at once and no token is [unsigned]. *)
Definition kept (ct : list string) : list string :=
  filter (λ x, 0 < String.length x) (Py.strip <$> (substitute <$> ct)).

(** A list of plain, nonempty tokens. *)
Definition tokens (l : list string) : Prop :=
  Forall (λ t, plain t ∧ t ≠ "") l.

(** The translator runs out of fuel on some C type. *)
Definition starved (fuel : nat) : Prop :=
  ∃ c_type, convert_c_to_rust fuel c_type = Timeout.

(** The exit status of the process: that of the report; 1 when an
    exception is not caught, as the interpreter has it; none when the
    script does not return. *)
Definition process_status (run : result report) : option nat :=
  match run with
  | Ok r => Some (status r)
  | Raise _ => Some 1
  | Timeout => None
  end.

(** [n] stars. *)
Fixpoint stars (n : nat) : string :=
  match n with
  | O => ""
  | S n' => String "*" (stars n')
  end.

(** A nonempty token without white space. *)
Definition word (t : string) : Prop :=
  t ≠ "" ∧ ∀ c, c ∈ chars t → Py.isspace c = false.

(** A parameter of a binding as it is written: the name, a colon, the
    type. *)
Definition rust_param (p : string * string) : string :=
  p.1 +:+ ": " +:+ p.2.

(** A type of a binding without colon or comma, and without white space at
    its ends. *)
Definition rust_type (t : string) : Prop :=
  t ≠ "" ∧ Py.strip t = t ∧ (":"%char ∉ chars t) ∧ (","%char ∉ chars t).

(** [n] pairs of brackets after the name of an array parameter. *)
Fixpoint brackets (n : nat) : string :=
  match n with
  | O => ""
  | S n' => String "[" (String "]" (brackets n'))
  end.

(** [n] markers as the extractor appends them to a type, each with a
    space before it. *)
Fixpoint markers (n : nat) : string :=
  match n with
  | O => ""
  | S n' => " *const" +:+ markers n'
  end.

(** What a declaration of the header does to the table. *)
Definition c_record (ret name : string) (args : list string)
    (fs : gmap string c_sig) : gmap string c_sig :=
  if (0 <? String.length (Py.strip name))
     && bool_decide (Py.strip name ∉ TO_IGNORE)
  then <[Py.strip name := (args, ret)]> fs
  else fs.

(** Whether a line of the bindings declares [name]: it holds [' fn '] and
    the name read off it is [name]. *)
Definition declares (line name : string) : bool :=
  Py.contains line " fn " &&
  match r_head line with
  | Ok (n, _) => String.eqb n name
  | _ => false
  end.

(** Whether a line of the header declares [name]: it holds the export
    marker and the name read off it is [name]. *)
Definition c_declares (line name : string) : bool :=
  Py.contains line " GEOS_DLL " &&
  match c_head line with
  | Ok (_, raw, _) => String.eqb (Py.strip raw) name
  | _ => false
  end.

(** Through the scan the table only loses keys, the set of names only
    gains members, and a failed comparison is counted exactly when a
    record is printed. *)
Record scan_le (st st' : rust_scan) : Prop := ScanLe {
  scan_le_dom : dom (rs_c_func st') ⊆ dom (rs_c_func st);
  scan_le_functions : rs_functions st ⊆ rs_functions st';
  scan_le_errors : rs_errors st ≤ rs_errors st';
  scan_le_clean :
    (rs_errors st = 0 ↔ rs_printed st = []) →
    (rs_errors st' = 0 ↔ rs_printed st' = [])
}.

(** No name of the set of the scan is a key of the table. *)
Definition apart (st : rust_scan) : Prop :=
  ∀ x, x ∈ rs_functions st → rs_c_func st !! x = None.

(** ** Sample texts *)

Definition header_one : list string :=
  [ "/* Exported functions */";
    "extern int GEOS_DLL GEOSFunc(const double * arg);" ].

Definition table_one : gmap string c_sig :=
  <["GEOSFunc" := (["const double *"], "int")]> ∅.

Definition bindings_other : list string :=
  [ "    pub fn GEOSOther(g: *const GEOSGeometry) -> c_int;" ].

Definition bindings_match : list string :=
  [ "    pub fn GEOSFunc(arg: *const c_double) -> c_int;" ].

Definition header_retired : list string :=
  [ "extern void GEOS_DLL finishGEOS_r(GEOSContextHandle_t handle);" ].

Definition bindings_twice : list string :=
  [ "    pub fn GEOSFunc(arg: *mut c_double) -> c_int;";
    "    pub fn GEOSFunc(arg: *const c_double) -> c_int;" ].

Definition report_clean : report :=
  {| errored := false; not_bound := []; extra := [];
     stdout := ["==> Not bound functions:"; "";
                "==> Extra (???) rust functions:"];
     status := 0 |}.

Definition report_missing : report :=
  {| errored := false;
     not_bound := ["GEOSFunc"];
     extra := ["GEOSOther"];
     stdout := ["==> Not bound functions:"; "GEOSFunc"; "";
                "==> Extra (???) rust functions:"; "GEOSOther"];
     status := 1 |}.

Definition report_twice : report :=
  {| errored := true;
     not_bound := [];
     extra := ["GEOSFunc"];
     stdout := [params_msg "GEOSFunc" "*const c_double" "*mut c_double";
                "==> Not bound functions:"; "";
                "==> Extra (???) rust functions:"; "GEOSFunc"];
     status := 1 |}.

(** The scan of [bindings_twice] after its first line. *)
Definition scan_twice : rust_scan :=
  {| rs_c_func := delete "GEOSFunc" table_one;
     rs_functions := ∅;
     rs_errors := 1;
     rs_printed := [params_msg "GEOSFunc" "*const c_double" "*mut c_double"] |}.

Definition header_array : list string :=
  [ "extern int GEOS_DLL GEOSFunc(double[], int n);" ].

Definition bindings_array : list string :=
  [ "    pub fn GEOSFunc(x: *const c_double, n: c_int) -> c_int;" ].

Definition header_brackets : list string :=
  [ "extern int GEOS_DLL GEOSFunc(double [], int n);" ].

Definition header_long : list string :=
  [ "extern GEOSGeometry GEOS_DLL *GEOSBuffer(";
    "    const GEOSGeometry* g,";
    "    double width, int quadsegs);";
    "extern void GEOS_DLL GEOSFree(void *buffer);" ].

Definition bindings_long : list string :=
  [ "    pub fn GEOSBuffer(";
    "        g: *const GEOSGeometry,";
    "        width: c_double,";
    "        quadsegs: c_int,";
    "    ) -> *mut GEOSGeometry;";
    "    pub fn GEOSFree(buffer: *mut c_void);" ].

(** [const], a space, a tab, [int]. *)
Definition tabbed_int : string := "const " +:+ String "009" "int".

(** The first line ends in a space, not in [');']. *)
Definition header_swallowed : list string :=
  [ "extern void GEOS_DLL GEOSInit(int a); ";
    "extern int GEOS_DLL GEOSFunc(int b);" ].

Definition bindings_swallowed : list string :=
  [ "    pub fn GEOSInit(a: c_int,";
    "        b: extern c_int GEOS_DLL GEOSFunc(int);" ].

Definition header_again : list string :=
  [ "extern int GEOS_DLL GEOSFunc(int a);";
    "extern void GEOS_DLL GEOSFunc(double b, int c);" ].

(** ** The primitives on sample texts *)

Example split_ex1 : Py.split "a,,b" "," = ["a"; ""; "b"].
Proof. reflexivity. Qed.
Example split_ex2 : Py.split "" " " = [""].
Proof. reflexivity. Qed.
Example split_ex3 :
  Py.split "extern int GEOS_DLL f(int a);" " GEOS_DLL " = ["extern int"; "f(int a);"].
Proof. reflexivity. Qed.
Example split_ex4 : Py.split "aXXXb" "XX" = ["a"; "Xb"].
Proof. reflexivity. Qed.
Example split_ex5 : Py.split "aaaa" "aa" = [""; ""; ""].
Proof. reflexivity. Qed.
Example strip_ex : Py.strip ("  a b" +:+ String "009" " ") = "a b".
Proof. reflexivity. Qed.
Example replace_ex2 : Py.replace "aaa" "aa" "b" = "ba".
Proof. reflexivity. Qed.
Example replace_ex : Py.replace "int * const x * const" " * const" " *const" = "int *const x *const".
Proof. reflexivity. Qed.
Example drop_last_ex : Py.drop_last 2 "x[]" = "x".
Proof. reflexivity. Qed.
Example sort_ex : Py.sort ["b"; "a"; "B"] = ["B"; "a"; "b"].
Proof. vm_compute. reflexivity. Qed.


(** ** Facts about the string primitives *)

Section strings.

Implicit Types (s p t : string) (c : ascii).

Lemma app_cons c s p : String c s +:+ p = String c (s +:+ p).
Proof. done. Qed.

Lemma app_empty p : "" +:+ p = p.
Proof. done. Qed.

Lemma string_app_nil_r s : s +:+ "" = s.
Proof. induction s as [|c s IH]; [done | by rewrite app_cons, IH]. Qed.

Lemma string_app_assoc s p t : (s +:+ p) +:+ t = s +:+ (p +:+ t).
Proof. induction s as [|c s IH]; [done | by rewrite !app_cons, IH]. Qed.

Lemma string_length_app s p :
  String.length (s +:+ p) = String.length s + String.length p.
Proof. induction s as [|c s IH]; [done | rewrite app_cons; simpl; by rewrite IH]. Qed.

Lemma length_zero_iff s : (String.length s =? 0) = true ↔ s = "".
Proof. destruct s; simpl; split; intros; done. Qed.

Lemma length_pos_iff s : (0 <? String.length s) = true ↔ s ≠ "".
Proof. destruct s; simpl; split; intros; done. Qed.

Lemma chars_app s p : chars (s +:+ p) = chars s ++ chars p.
Proof. induction s as [|c s IH]; [done | rewrite app_cons; simpl; by rewrite IH]. Qed.

Lemma lstrip_length s : String.length (Py.lstrip s) ≤ String.length s.
Proof.
  induction s as [|c s IH]; simpl; [done|].
  destruct (Py.isspace c); simpl; lia.
Qed.

Lemma rstrip_length s : String.length (Py.rstrip s) ≤ String.length s.
Proof.
  induction s as [|c s IH]; simpl; [done|].
  destruct (Py.rstrip s); simpl in *; [destruct (Py.isspace c); simpl; lia | lia].
Qed.

Lemma strip_length s : String.length (Py.strip s) ≤ String.length s.
Proof.
  unfold Py.strip. etrans; [apply rstrip_length | apply lstrip_length].
Qed.

Lemma lstrip_chars s c : c ∈ chars (Py.lstrip s) → c ∈ chars s.
Proof.
  induction s as [|a s IH]; simpl; [done|].
  destruct (Py.isspace a); [|done]. intros; right; auto.
Qed.

Lemma rstrip_chars s c : c ∈ chars (Py.rstrip s) → c ∈ chars s.
Proof.
  revert c. induction s as [|a s IH]; intros c; simpl; [done|].
  destruct (Py.rstrip s) as [|b r] eqn:E.
  - destruct (Py.isspace a); simpl; [by intros ?%elem_of_nil|].
    intros ->%list_elem_of_singleton. left.
  - simpl. intros [->|H]%elem_of_cons; [left | right; by apply IH].
Qed.

Lemma strip_chars s c : c ∈ chars (Py.strip s) → c ∈ chars s.
Proof. intros H. by apply lstrip_chars, rstrip_chars. Qed.

(** A string without white space at either end is left as it is. *)
Lemma lstrip_id c s : Py.isspace c = false → Py.lstrip (String c s) = String c s.
Proof. simpl. by intros ->. Qed.

Lemma rstrip_app s t : t ≠ "" → Py.rstrip t = t → Py.rstrip (s +:+ t) = s +:+ t.
Proof.
  intros Hne Ht. induction s as [|c s IH]; [done|].
  rewrite app_cons. simpl. rewrite IH. destruct (s +:+ t) eqn:E; [|done].
  destruct s; [by rewrite app_empty in E | by rewrite app_cons in E].
Qed.

Lemma rstrip_no_space s :
  (∀ c, c ∈ chars s → Py.isspace c = false) → Py.rstrip s = s.
Proof.
  induction s as [|a s IH]; simpl; [done|]. intros H.
  rewrite IH; [|intros c Hc; apply H; by right].
  destruct s; [|done]. rewrite (H a); [done | left].
Qed.

Lemma strip_no_space s :
  (∀ c, c ∈ chars s → Py.isspace c = false) → Py.strip s = s.
Proof.
  intros H. unfold Py.strip.
  destruct s as [|a s]; [done|].
  rewrite lstrip_id; [|apply H; left]. by apply rstrip_no_space.
Qed.

Lemma startswith_app s p : Py.startswith (p +:+ s) p = true.
Proof.
  induction p as [|c p IH]; [by destruct s|].
  rewrite app_cons. cbn [Py.startswith]. by rewrite Ascii.eqb_refl.
Qed.

Lemma startswith_inv s p : Py.startswith s p = true → ∃ t, s = p +:+ t.
Proof.
  revert s. induction p as [|b p IH]; intros s; cbn [Py.startswith]; [by exists s|].
  destruct s as [|a s]; [done|]. cbn [Py.startswith].
  destruct (Ascii.eqb_spec a b) as [->|]; [|done].
  intros [t ->]%IH. by exists t.
Qed.

Lemma endswith_inv s p : Py.endswith s p = true → ∃ t, s = t +:+ p.
Proof.
  induction s as [|c s IH]; cbn [Py.endswith].
  - rewrite orb_false_r. intros ->%String.eqb_eq. by exists "".
  - intros [->%String.eqb_eq|[t ->]%IH]%orb_true_iff.
    + by exists "".
    + by exists (String c t).
Qed.

Lemma endswith_app s p : Py.endswith (s +:+ p) p = true.
Proof.
  induction s as [|c s IH].
  - rewrite app_empty. destruct p; cbn [Py.endswith]; by rewrite String.eqb_refl.
  - rewrite app_cons. cbn [Py.endswith]. rewrite IH. apply orb_true_r.
Qed.

Lemma endswith_chars s p c : Py.endswith s p = true → c ∈ chars p → c ∈ chars s.
Proof.
  intros [t ->]%endswith_inv Hc. rewrite chars_app. apply elem_of_app; by right.
Qed.

Lemma endswith_length s p :
  Py.endswith s p = true → String.length p ≤ String.length s.
Proof. intros [t ->]%endswith_inv. rewrite string_length_app. lia. Qed.

Lemma substring_length n s :
  String.length (String.substring 0 n s) = n `min` String.length s.
Proof.
  revert s. induction n as [|n IH]; intros [|c s]; simpl; try done.
  by rewrite IH.
Qed.

Lemma drop_last_length n s :
  String.length (Py.drop_last n s) = String.length s - n.
Proof. unfold Py.drop_last. rewrite substring_length. lia. Qed.

Lemma substring_app s p :
  String.substring 0 (String.length s) (s +:+ p) = s.
Proof.
  induction s as [|c s IH]; [by destruct p|].
  rewrite app_cons. simpl. by rewrite IH.
Qed.

Lemma drop_last_app s p : Py.drop_last (String.length p) (s +:+ p) = s.
Proof.
  unfold Py.drop_last. rewrite string_length_app.
  replace (String.length s + String.length p - String.length p)
    with (String.length s) by lia.
  apply substring_app.
Qed.

Lemma pop_app {A} (l : list A) x : Py.pop (l ++ [x]) = Some (l, x).
Proof.
  induction l as [|y l IH]; simpl; [done|].
  rewrite IH. by destruct l.
Qed.

Lemma pop_Some {A} (l : list A) r x : Py.pop l = Some (r, x) → l = r ++ [x].
Proof.
  revert r. induction l as [|y l IH]; intros r; simpl; [done|].
  destruct l as [|z l]; [by intros [= <- <-]|].
  destruct (Py.pop (z :: l)) as [[r' y']|] eqn:E; [|done].
  intros [= <- <-]. simpl. f_equal. by apply IH.
Qed.

Lemma pop_None {A} (l : list A) : Py.pop l = None → l = [].
Proof.
  induction l as [|y l IH]; simpl; [done|].
  destruct l as [|z l]; [done|].
  destruct (Py.pop (z :: l)) as [[??]|]; [done|]. intros _. discriminate (IH eq_refl).
Qed.

Lemma elem_of_sort x l : x ∈ Py.sort l ↔ x ∈ l.
Proof. unfold Py.sort. by rewrite merge_sort_Permutation. Qed.

Lemma sort_nil_iff l : Py.sort l = [] ↔ l = [].
Proof.
  unfold Py.sort. split; [|by intros ->].
  intros H. apply Permutation_nil_r. rewrite <- H.
  symmetry. apply merge_sort_Permutation.
Qed.

Lemma sort_sorted l : Sorted String.le (Py.sort l).
Proof. apply Sorted_merge_sort; apply _. Qed.

End strings.

(** ** Splitting at a single character *)

Section split_char.

Variable d : ascii.
Implicit Types (s t : string) (c : ascii) (l : list string).

Lemma startswith_empty s : Py.startswith s "" = true.
Proof. by destruct s. Qed.

Lemma split_char_eq s :
  Py.split s (String d "") =
  match s with
  | "" => [""]
  | String c s' =>
      if Ascii.eqb c d then "" :: Py.split s' (String d "")
      else match Py.split s' (String d "") with
           | h :: t => String c h :: t
           | [] => [String c ""]
           end
  end.
Proof.
  destruct s as [|c s]; [done|]. unfold Py.split. cbn [Py.split_go Py.startswith].
  rewrite startswith_empty. by destruct (Ascii.eqb c d).
Qed.

Lemma split_char_ne s : Py.split s (String d "") ≠ [].
Proof.
  induction s as [|c s IH]; rewrite split_char_eq; [done|].
  destruct (Ascii.eqb c d); [done|]. by destruct (Py.split s (String d "")).
Qed.

Lemma split_char_chars s tok c :
  tok ∈ Py.split s (String d "") → c ∈ chars tok → c ∈ chars s ∧ c ≠ d.
Proof.
  revert tok. induction s as [|a s IH]; intros tok; rewrite split_char_eq.
  - intros ->%list_elem_of_singleton. by intros ?%elem_of_nil.
  - destruct (Ascii.eqb_spec a d) as [->|Hne].
    + intros [->|Hin]%elem_of_cons; [by intros ?%elem_of_nil|].
      intros Hc. destruct (IH _ Hin Hc). split; [by right | done].
    + destruct (Py.split s (String d "")) as [|h t] eqn:E;
        [by apply split_char_ne in E|].
      intros [->|Hin]%elem_of_cons.
      * simpl. intros [->|Hc]%elem_of_cons; [split; [left | done]|].
        destruct (IH h (list_elem_of_here _ _) Hc). split; [by right | done].
      * intros Hc. destruct (IH tok) as [? ?]; [by right | done |].
        split; [by right | done].
Qed.

Lemma split_char_id t :
  (∀ c, c ∈ chars t → c ≠ d) → Py.split t (String d "") = [t].
Proof.
  induction t as [|a t IH]; intros H; rewrite split_char_eq; [done|].
  destruct (Ascii.eqb_spec a d) as [->|_]; [by destruct (H d); [left|]|].
  rewrite IH; [done|]. intros c Hc. apply H. by right.
Qed.

Lemma split_char_app t s :
  (∀ c, c ∈ chars t → c ≠ d) →
  Py.split (t +:+ String d s) (String d "") = t :: Py.split s (String d "").
Proof.
  induction t as [|a t IH]; intros H.
  - rewrite app_empty, split_char_eq. by rewrite Ascii.eqb_refl.
  - rewrite app_cons, split_char_eq.
    destruct (Ascii.eqb_spec a d) as [->|_]; [by destruct (H d); [left|]|].
    rewrite IH; [done|]. intros c Hc. apply H. by right.
Qed.

Lemma split_join l :
  l ≠ [] → (∀ t c, t ∈ l → c ∈ chars t → c ≠ d) →
  Py.split (Py.join (String d "") l) (String d "") = l.
Proof.
  induction l as [|t l IH]; intros Hne H; [done|].
  destruct l as [|t' l].
  - simpl. apply split_char_id. intros c. apply H. left.
  - change (Py.join (String d "") (t :: t' :: l))
      with (t +:+ String d (Py.join (String d "") (t' :: l))).
    rewrite split_char_app by (intros c; apply H; left).
    f_equal. apply IH; [done|]. intros t0 c Ht0. apply H. by right.
Qed.

End split_char.

(** ** Splitting at a text that occurs *)

Section split_occurs.

Implicit Types (s sep : string).

Lemma split_go_ne sep k s : Py.split_go sep k s ≠ [].
Proof.
  revert k. induction s as [|c s IH]; intros k; [done|].
  destruct k as [|k]; cbn [Py.split_go]; [|apply IH].
  destruct (Py.startswith (String c s) sep); [done|].
  by destruct (Py.split_go sep 0 s).
Qed.

Lemma split_contains s sep :
  sep ≠ "" → Py.contains s sep = true → 2 ≤ length (Py.split s sep).
Proof.
  intros Hsep. unfold Py.split.
  induction s as [|c s IH]; cbn [Py.contains Py.split_go].
  - rewrite orb_false_r. by destruct sep.
  - destruct (Py.startswith (String c s) sep) eqn:E.
    + intros _.
      pose proof (split_go_ne sep (String.length sep - 1) s) as H.
      destruct (Py.split_go sep (String.length sep - 1) s); [done|].
      simpl. lia.
    + simpl. intros H%IH.
      destruct (Py.split_go sep 0 s) as [|h t]; simpl in *; lia.
Qed.

End split_occurs.

(** ** Outcomes of sequenced computations *)

Section outcomes.

Context {A B : Type}.
Implicit Types (m : result A) (k : A → result B).

Lemma bind_Ok m k b : m ≫= k = Ok b ↔ ∃ a, m = Ok a ∧ k a = Ok b.
Proof.
  destruct m as [a| |]; simpl; split; try done.
  - intros H. by exists a.
  - by intros (a' & [= <-] & H).
  - by intros (a' & [=] & _).
  - by intros (a' & [=] & _).
Qed.

Lemma bind_no_timeout m k :
  m ≠ Timeout → (∀ a, m = Ok a → k a ≠ Timeout) → m ≫= k ≠ Timeout.
Proof. destruct m as [a| |]; simpl; intros H1 H2; [by apply H2 | done | done]. Qed.

Lemma of_option_no_timeout e (o : option A) : of_option e o ≠ Timeout.
Proof. by destruct o. Qed.

Lemma index_no_timeout (l : list A) i : index l i ≠ Timeout.
Proof. apply of_option_no_timeout. Qed.

End outcomes.

Ltac inv_bind H :=
  let a := fresh "a" in
  let E := fresh "E" in
  apply bind_Ok in H as (a & E & H).

(** ** The loops that run on a measure of their own leave in time *)

Section termination.

Lemma array_loop_eq n p t :
  array_loop n p t =
  if Py.endswith t "[]" then
    match n with
    | O => Timeout
    | S n' => array_loop n' (p +:+ " *const") (Py.strip (Py.drop_last 2 t))
    end
  else Ok (p, t).
Proof. by destruct n. Qed.

Lemma array_loop_no_timeout n p t :
  String.length t ≤ n → array_loop n p t ≠ Timeout.
Proof.
  revert p t. induction n as [|n IH]; intros p t Hn; rewrite array_loop_eq.
  - destruct (Py.endswith t "[]") eqn:E; [|done].
    apply endswith_length in E. simpl in E. lia.
  - destruct (Py.endswith t "[]") eqn:E; [|done].
    apply IH. apply endswith_length in E. simpl in E.
    pose proof (strip_length (Py.drop_last 2 t)) as H.
    rewrite drop_last_length in H. lia.
Qed.

Lemma for_each_no_timeout {A St} (l : list A) (body : A → St → result St) st :
  (∀ x st, body x st ≠ Timeout) → for_each l body st ≠ Timeout.
Proof.
  intros Hb. revert st. induction l as [|x l IH]; intros st; simpl; [done|].
  apply bind_no_timeout; [apply Hb | intros; apply IH].
Qed.

Lemma get_c_args_part_no_timeout part args :
  get_c_args_part part args ≠ Timeout.
Proof.
  unfold get_c_args_part.
  destruct (String.length (Py.strip part) =? 0); [done|].
  apply bind_no_timeout; [apply of_option_no_timeout|].
  intros [params ty_name] _.
  apply bind_no_timeout; [by apply array_loop_no_timeout|].
  intros [params' ty_name'] _.
  apply bind_no_timeout.
  - by destruct (String.length ty_name' =? 0).
  - intros ty _. by destruct (star_loop params' ty).
Qed.

Lemma get_c_args_no_timeout text args : get_c_args text args ≠ Timeout.
Proof. apply for_each_no_timeout, get_c_args_part_no_timeout. Qed.

Lemma pointer_loop_eq n b ct :
  pointer_loop n b ct =
  '(init, last) ← of_option IndexError (Py.pop ct);
  if Py.endswith last "*" then
    match n with
    | O => Timeout
    | S n' =>
        pointer_loop n' b
          ((if b then "*const" else "*mut")
             :: init ++ [Py.strip (Py.drop_last 1 last)])
    end
  else Ok ct.
Proof. by destruct n. Qed.

Lemma marker_loop_eq n ct :
  marker_loop n ct =
  '(init, last) ← of_option IndexError (Py.pop ct);
  if Py.endswith last "*const" then
    match n with
    | O => Timeout
    | S n' =>
        let last := Py.strip (Py.drop_last 6 last) in
        let ct := if String.length last =? 0 then init else init ++ [last] in
        marker_loop n' ("*const" :: ct)
    end
  else Ok ct.
Proof. by destruct n. Qed.

Lemma last_len_app l x : last_len (l ++ [x]) = String.length x.
Proof. unfold last_len. by rewrite pop_app. Qed.

Lemma pointer_loop_no_timeout n b ct :
  last_len ct ≤ n → pointer_loop n b ct ≠ Timeout.
Proof.
  revert ct. induction n as [|n IH]; intros ct Hn; rewrite pointer_loop_eq.
  - destruct (Py.pop ct) as [[init last]|] eqn:Ep; simpl; [|done].
    destruct (Py.endswith last "*") eqn:E; [|done].
    apply pop_Some in Ep as ->. rewrite last_len_app in Hn.
    apply endswith_length in E. simpl in E. lia.
  - destruct (Py.pop ct) as [[init last]|] eqn:Ep; simpl; [|done].
    destruct (Py.endswith last "*") eqn:E; [|done].
    apply pop_Some in Ep as ->. rewrite last_len_app in Hn.
    apply IH. rewrite app_comm_cons, last_len_app.
    apply endswith_length in E. simpl in E.
    pose proof (strip_length (Py.drop_last 1 last)) as H.
    rewrite drop_last_length in H. lia.
Qed.

End termination.

(** ** Reading the return type never fails *)

Lemma get_rust_ret_type_total text : ∃ ret_type, get_rust_ret_type text = Ok ret_type.
Proof.
  unfold get_rust_ret_type.
  destruct (Py.contains text ") -> ") eqn:E; simpl; [|by exists ""].
  apply split_contains in E; [|done].
  destruct (Py.split text ") -> ") as [|x [|after l]]; simpl in E; try lia.
  simpl. pose proof (split_go_ne ";" 0 after) as H. unfold index, Py.split.
  destruct (Py.split_go ";" 0 after) as [|ret_type l']; [done|].
  by exists ret_type.
Qed.

(** ** One turn of each scan *)

Section turns.

Implicit Types (content : list string) (line name : string).
Implicit Types (fs : gmap string c_sig) (st : rust_scan).

Lemma suffix_drop_1 {A} (l1 l : list A) x :
  l1 `suffix_of` x :: l → drop 1 l1 `suffix_of` l.
Proof.
  destruct l1 as [|a l1]; simpl; [intros _; apply suffix_nil|].
  intros [[= -> ->]|H]%suffix_cons_inv; [done|].
  by eapply suffix_cons_l.
Qed.

Lemma c_continuation_suffix content args args' c' :
  c_continuation content args = Ok (args', c') → c' `suffix_of` content.
Proof.
  revert args. induction content as [|line content IH]; intros args; simpl.
  - by intros [= _ <-].
  - intros H. inv_bind H. inv_bind H.
    destruct (Py.endswith line ");").
    + by injection H as _ <-.
    + apply suffix_cons_r. by eapply IH.
Qed.

Lemma r_continuation_suffix content args args' c' :
  r_continuation content args = Ok (args', c') → c' `suffix_of` content.
Proof.
  revert args. induction content as [|line content IH]; intros args; simpl.
  - by intros [= _ <-].
  - intros H. inv_bind H.
    destruct (Py.endswith line ");" || Py.contains line ") -> ").
    + by injection H as _ <-.
    + apply suffix_cons_r. by eapply IH.
Qed.

Lemma c_declaration_Ok line content fs c' fs' :
  c_declaration line content fs = Ok (c', fs') →
  ∃ ret name text args,
    c_head line = Ok (ret, name, text) ∧ c' `suffix_of` content
    ∧ fs' = c_record ret name args fs.
Proof.
  unfold c_declaration. intros H.
  inv_bind H. destruct a as [[ret name] text].
  inv_bind H. inv_bind H. destruct a0 as [args c2].
  injection H as <- <-. exists ret, name, text, args.
  split; [done|]. split; [|done].
  destruct (Py.endswith text ");"); simpl in E1.
  - by injection E1 as _ <-.
  - apply c_continuation_suffix in E1.
    etrans; [done|]. apply suffix_drop.
Qed.

Lemma c_body_Ok line content' fs c2 fs2 :
  c_body line content' fs = Ok (c2, fs2) →
  c2 `suffix_of` content'
  ∧ (Py.contains line " GEOS_DLL " = false ∧ fs2 = fs
     ∨ Py.contains line " GEOS_DLL " = true
       ∧ ∃ ret name text args,
           c_head line = Ok (ret, name, text)
           ∧ fs2 = c_record ret name args fs).
Proof.
  unfold c_body. destruct (Py.contains line " GEOS_DLL "); simpl.
  - intros H. inv_bind H. destruct a as [c' fs'].
    injection H as <- <-.
    apply c_declaration_Ok in E as (ret & name & text & args & Hh & Hs & ->).
    split; [by eapply suffix_drop_1|]. right. split; [done|]. by exists ret, name, text, args.
  - intros [= <- <-]. split; [done|]. by left.
Qed.

Lemma c_body_no_timeout line content' fs : c_body line content' fs ≠ Timeout.
Proof.
  unfold c_body. destruct (Py.contains line " GEOS_DLL "); simpl; [|done].
  apply bind_no_timeout; [|by intros [??] _].
  unfold c_declaration. apply bind_no_timeout.
  { unfold c_head.
    repeat (apply bind_no_timeout; [apply index_no_timeout | intros ? _]).
    destruct (star_loop _ _).
    by apply bind_no_timeout; [apply index_no_timeout | intros ? _]. }
  intros [[ret name] text] _.
  apply bind_no_timeout; [apply get_c_args_no_timeout|]. intros args _.
  apply bind_no_timeout; [|by intros [??] _].
  destruct (Py.endswith text ");"); cbn [negb]; [done|].
  generalize (drop 1 (line :: content')). intros l. revert args.
  induction l as [|x l IH]; intros args; simpl; [done|].
  apply bind_no_timeout; [apply index_no_timeout | intros ? _].
  apply bind_no_timeout; [apply get_c_args_no_timeout | intros ? _].
  by destruct (Py.endswith x ");").
Qed.

(** The flag of a comparison is set exactly when nothing was printed. *)
Lemma compare_Ok fuel name sig rust_args ret_type same out :
  compare_rust_and_c_funcs fuel name sig rust_args ret_type = Ok (same, out) →
  same = true ↔ out = [].
Proof.
  unfold compare_rust_and_c_funcs. intros H. inv_bind H. inv_bind H.
  destruct (negb _), (negb _); simpl in H; injection H as <- <-; done.
Qed.

(** What a declaration of the bindings does to the state of the scan. *)
Lemma r_declaration_Ok fuel line content st c' st' :
  r_declaration fuel line content st = Ok (c', st') →
  ∃ name parts,
    r_head line = Ok (name, parts) ∧ c' `suffix_of` content
    ∧ match rs_c_func st !! name with
      | Some sig =>
          ∃ (same : bool) out,
            (same = true ↔ out = [])
            ∧ st' = {| rs_c_func := delete name (rs_c_func st);
                       rs_functions := rs_functions st;
                       rs_errors := if same then rs_errors st
                                    else S (rs_errors st);
                       rs_printed := rs_printed st ++ out |}
      | None =>
          st' = if 0 <? String.length name
                then {| rs_c_func := rs_c_func st;
                        rs_functions := {[ name ]} ∪ rs_functions st;
                        rs_errors := rs_errors st;
                        rs_printed := rs_printed st |}
                else st
      end.
Proof.
  unfold r_declaration. intros H.
  inv_bind H. destruct a as [name parts]. exists name, parts.
  split; [done|].
  destruct (rs_c_func st !! name) as [sig|].
  - inv_bind H. inv_bind H. inv_bind H. destruct a1 as [args c2].
    inv_bind H. inv_bind H. inv_bind H. destruct a3 as [same out].
    injection H as <- <-. split.
    + destruct (negb _ && negb _); simpl in E2.
      * apply r_continuation_suffix in E2.
        etrans; [done|]. apply suffix_drop.
      * by injection E2 as _ <-.
    + exists same, out. split; [|done]. by eapply compare_Ok.
  - by injection H as <- <-.
Qed.

Lemma r_body_Ok fuel line content' st c2 st2 :
  r_body fuel line content' st = Ok (c2, st2) →
  c2 `suffix_of` content'
  ∧ (Py.contains line " fn " = false ∧ st2 = st
     ∨ Py.contains line " fn " = true
       ∧ ∃ c', r_declaration fuel line (line :: content') st = Ok (c', st2)).
Proof.
  unfold r_body. destruct (Py.contains line " fn "); simpl.
  - intros H. inv_bind H. destruct a as [c' st'].
    injection H as <- <-. split; [|right; eauto].
    apply r_declaration_Ok in E as (name & parts & _ & Hs & _).
    by eapply suffix_drop_1.
  - intros [= <- <-]. split; [done|]. by left.
Qed.

End turns.

(** ** The scans as sequences of turns *)

Section scans.

Implicit Types (content : list string) (line name : string).
Implicit Types (fs cf : gmap string c_sig) (st : rust_scan).

(** *** The scan of the header *)

Lemma c_loop_fuel n m content fs :
  length content ≤ n → length content ≤ m →
  c_loop n content fs = c_loop m content fs.
Proof.
  revert m content fs. induction n as [|n IH]; intros m content fs Hn Hm.
  - destruct content; simpl in *; [by destruct m | lia].
  - destruct content as [|line content]; [by destruct m|].
    destruct m as [|m]; simpl in *; [lia|].
    destruct (c_body line content fs) as [[c2 fs2]| |] eqn:E; simpl; try done.
    apply c_body_Ok in E as [Hs%suffix_length _]. apply IH; lia.
Qed.

Lemma c_loop_no_timeout n content fs :
  length content ≤ n → c_loop n content fs ≠ Timeout.
Proof.
  revert content fs. induction n as [|n IH]; intros content fs Hn.
  - destruct content; simpl in *; [done | lia].
  - destruct content as [|line content]; simpl in *; [done|].
    apply bind_no_timeout; [apply c_body_no_timeout|].
    intros [c2 fs2] [Hs%suffix_length _]%c_body_Ok. apply IH. lia.
Qed.

Lemma get_c_functions_no_timeout header : get_c_functions header ≠ Timeout.
Proof. by apply c_loop_no_timeout. Qed.

Lemma c_loop_steps n content fs cf :
  c_loop n content fs = Ok cf → rtc c_step (content, fs) ([], cf).
Proof.
  revert content fs. induction n as [|n IH]; intros [|line content] fs; simpl;
    try done.
  - by intros [= ->].
  - by intros [= ->].
  - intros H. inv_bind H. destruct a as [c2 fs2].
    eapply rtc_l; [|by apply IH]. by exists line, content.
Qed.

Lemma c_loop_reach n c0 fs0 content fs cf :
  rtc c_step (c0, fs0) (content, fs) → c_loop n c0 fs0 = Ok cf →
  ∃ m, c_loop m content fs = Ok cf.
Proof.
  intros Hr. revert n.
  remember (c0, fs0) as s0 eqn:E0. remember (content, fs) as s eqn:E.
  revert c0 fs0 E0. induction Hr as [s|s0 s1 s (line & c' & Hl & Hb) Hr IH];
    intros c0 fs0 -> n Hloop.
  - injection E as -> ->. by exists n.
  - simpl in Hl. subst c0. destruct n as [|n]; simpl in Hloop; [done|].
    simpl in Hb. rewrite Hb in Hloop. simpl in Hloop.
    destruct s1 as [c1 fs1]. by eapply IH.
Qed.

Lemma c_step_dom s1 s2 : c_step s1 s2 → dom s1.2 ⊆ dom s2.2.
Proof.
  intros (line & c' & _ & Hb). destruct s2 as [c2 fs2].
  apply c_body_Ok in Hb as [_ [[_ ->]|[_ (ret & name & text & args & _ & ->)]]];
    [done|].
  unfold c_record. case_match; [|done]. set_solver.
Qed.

Lemma c_steps_dom s1 s2 : rtc c_step s1 s2 → dom s1.2 ⊆ dom s2.2.
Proof.
  induction 1 as [|s1 s2 s3 H%c_step_dom _ IH]; [done | by etrans].
Qed.

Lemma c_record_ignore ret name args fs k :
  k ∈ TO_IGNORE → fs !! k = None → c_record ret name args fs !! k = None.
Proof.
  intros Hk Hfs. unfold c_record. case_match eqn:E; [|done].
  apply andb_true_iff in E as [_ E%bool_decide_eq_true].
  rewrite lookup_insert_ne; [done|]. intros Heq. apply E. by rewrite Heq.
Qed.

Lemma c_steps_ignore s1 s2 k :
  rtc c_step s1 s2 → k ∈ TO_IGNORE → s1.2 !! k = None → s2.2 !! k = None.
Proof.
  intros Hr Hk. induction Hr as [|s1 s2 s3 (line & c' & _ & Hb) _ IH]; [done|].
  intros H1. apply IH. destruct s2 as [c2 fs2].
  apply c_body_Ok in Hb as [_ [[_ ->]|[_ (ret & name & text & args & _ & ->)]]];
    [done|].
  by apply c_record_ignore.
Qed.

(** The table of the header holds no name of the deny-list. *)
Lemma get_c_functions_ignore header cf k :
  get_c_functions header = Ok cf → k ∈ TO_IGNORE → cf !! k = None.
Proof.
  intros H%c_loop_steps Hk.
  by apply (c_steps_ignore _ _ k H Hk).
Qed.

(** Lines without the export marker are passed over. *)
Lemma c_steps_skip pre content fs :
  Forall (λ l, Py.contains l " GEOS_DLL " = false) pre →
  rtc c_step (pre ++ content, fs) (content, fs).
Proof.
  induction 1 as [|line pre Hl _ IH]; [done|].
  eapply rtc_l; [|exact IH]. exists line, (pre ++ content).
  split; [done|]. unfold c_body. simpl. by rewrite Hl.
Qed.

(** *** The scan of the bindings *)

Lemma r_loop_fuel fuel n m content st :
  length content ≤ n → length content ≤ m →
  r_loop fuel n content st = r_loop fuel m content st.
Proof.
  revert m content st. induction n as [|n IH]; intros m content st Hn Hm.
  - destruct content; simpl in *; [by destruct m | lia].
  - destruct content as [|line content]; [by destruct m|].
    destruct m as [|m]; simpl in *; [lia|].
    destruct (r_body fuel line content st) as [[c2 st2]| |] eqn:E; simpl;
      try done.
    apply r_body_Ok in E as [Hs%suffix_length _]. apply IH; lia.
Qed.

Lemma r_loop_steps fuel n content st st' :
  r_loop fuel n content st = Ok st' → rtc (r_step fuel) (content, st) ([], st').
Proof.
  revert content st. induction n as [|n IH]; intros [|line content] st; simpl;
    try done.
  - by intros [= ->].
  - by intros [= ->].
  - intros H. inv_bind H. destruct a as [c2 st2].
    eapply rtc_l; [|by apply IH]. by exists line, content.
Qed.

Lemma r_loop_reach fuel n c0 st0 content st st' :
  rtc (r_step fuel) (c0, st0) (content, st) → r_loop fuel n c0 st0 = Ok st' →
  ∃ m, r_loop fuel m content st = Ok st'.
Proof.
  intros Hr. revert n.
  remember (c0, st0) as s0 eqn:E0. remember (content, st) as s eqn:E.
  revert c0 st0 E0. induction Hr as [s|s0 s1 s (line & c' & Hl & Hb) Hr IH];
    intros c0 st0 -> n Hloop.
  - injection E as -> ->. by exists n.
  - simpl in Hl. subst c0. destruct n as [|n]; simpl in Hloop; [done|].
    simpl in Hb. rewrite Hb in Hloop. simpl in Hloop.
    destruct s1 as [c1 st1]. by eapply IH.
Qed.

(** Lines without [' fn '] are passed over. *)
Lemma r_steps_skip fuel pre content st :
  Forall (λ l, Py.contains l " fn " = false) pre →
  rtc (r_step fuel) (pre ++ content, st) (content, st).
Proof.
  induction 1 as [|line pre Hl _ IH]; [done|].
  eapply rtc_l; [|exact IH]. exists line, (pre ++ content).
  split; [done|]. unfold r_body. simpl. by rewrite Hl.
Qed.

Lemma scan_le_refl st : scan_le st st.
Proof. by split. Qed.

Lemma scan_le_trans st1 st2 st3 :
  scan_le st1 st2 → scan_le st2 st3 → scan_le st1 st3.
Proof.
  intros [] []. split; [by etrans | by etrans | by etrans | auto].
Qed.

Lemma r_step_le fuel s1 s2 : r_step fuel s1 s2 → scan_le s1.2 s2.2.
Proof.
  intros (line & c' & _ & Hb). destruct s1 as [c1 st1], s2 as [c2 st2].
  simpl in *. apply r_body_Ok in Hb as [_ [[_ ->]|[_ [c3 Hd]]]];
    [apply scan_le_refl|].
  apply r_declaration_Ok in Hd as (name & parts & _ & _ & Hd).
  destruct (rs_c_func st1 !! name) as [sig|].
  - destruct Hd as (same & out & Hsame & ->). split; simpl.
    + rewrite dom_delete_L. by apply subseteq_difference_l.
    + done.
    + destruct same; lia.
    + intros Hc. destruct same.
      * destruct Hsame as [Ho _]. rewrite (Ho eq_refl), app_nil_r. done.
      * split; [done|]. intros [_ Ho]%app_eq_nil.
        destruct Hsame as [_ Hs]. by specialize (Hs Ho).
  - subst st2. case_match; [|apply scan_le_refl].
    split; simpl; [done | set_solver | done | done].
Qed.

Lemma r_steps_le fuel s1 s2 : rtc (r_step fuel) s1 s2 → scan_le s1.2 s2.2.
Proof.
  induction 1 as [|s1 s2 s3 H%r_step_le _ IH];
    [apply scan_le_refl | by eapply scan_le_trans].
Qed.

Lemma r_steps_suffix fuel s1 s2 :
  rtc (r_step fuel) s1 s2 → s2.1 `suffix_of` s1.1.
Proof.
  induction 1 as [|s1 s2 s3 (line & c' & Hl & Hb) _ IH]; [done|].
  destruct s2 as [c2 st2]. apply r_body_Ok in Hb as [Hs _].
  rewrite Hl. etrans; [done|]. by apply suffix_cons_r.
Qed.

(** A key that no line of the bindings declares stays in the table. *)
Lemma r_steps_keep fuel s1 s2 name :
  rtc (r_step fuel) s1 s2 →
  (∀ line, line ∈ s1.1 → declares line name = false) →
  is_Some (rs_c_func s1.2 !! name) → is_Some (rs_c_func s2.2 !! name).
Proof.
  intros Hr. induction Hr as [|s1 s2 s3 (line & c' & Hl & Hb) _ IH]; [done|].
  intros Hno Hin. destruct s1 as [c1 st1], s2 as [c2 st2]. simpl in *. subst c1.
  apply r_body_Ok in Hb as [Hs Hb]. apply IH.
  - intros l Hl. apply Hno. right.
    destruct Hs as [pre ->]. apply elem_of_app; by right.
  - destruct Hb as [[_ ->]|[Hc [c3 Hd]]]; [done|].
    apply r_declaration_Ok in Hd as (name' & parts & Hh & _ & Hd).
    assert (name' ≠ name) as Hne.
    { intros ->. specialize (Hno line (list_elem_of_here _ _)).
      unfold declares in Hno. by rewrite Hc, Hh, String.eqb_refl in Hno. }
    destruct (rs_c_func st1 !! name') as [sig|].
    + destruct Hd as (same & out & _ & ->). simpl.
      by rewrite lookup_delete_ne.
    + subst st2. by case_match.
Qed.

End scans.

(** ** The report *)

Section report.

Implicit Types (fs cf : gmap string c_sig) (rf : gset string).

Lemma elem_of_keys fs x : x ∈ keys fs ↔ is_Some (fs !! x).
Proof.
  unfold keys. rewrite list_elem_of_fmap. split.
  - intros [[k v] [-> H%elem_of_map_to_list]]. by exists v.
  - intros [v H]. exists (x, v). split; [done | by apply elem_of_map_to_list].
Qed.

Lemma keys_nil_iff fs : keys fs = [] ↔ fs = ∅.
Proof.
  unfold keys. rewrite <- map_to_list_empty_iff.
  split; [apply fmap_nil_inv | by intros ->].
Qed.

Lemma NoDup_keys fs : NoDup (keys fs).
Proof. apply NoDup_fst_map_to_list. Qed.

Lemma size_pos_map fs : (0 <? size fs) = false ↔ fs = ∅.
Proof.
  rewrite <- map_size_empty_iff. destruct (size fs); simpl; split; intros; done.
Qed.

Lemma size_pos_set rf : (0 <? size rf) = false ↔ rf = ∅.
Proof.
  rewrite <- (leibniz_equiv_iff rf ∅), <- size_empty_iff.
  destruct (size rf); simpl; split; intros; done.
Qed.

Lemma exit_status_zero e fs rf :
  exit_status e fs rf = 0 ↔ e = false ∧ fs = ∅ ∧ rf = ∅.
Proof.
  unfold exit_status. rewrite <- size_pos_map, <- size_pos_set.
  destruct e, (0 <? size fs), (0 <? size rf); simpl; intuition congruence.
Qed.

Lemma exit_status_range e fs rf :
  exit_status e fs rf = 0 ∨ exit_status e fs rf = 1.
Proof. unfold exit_status. case_match; auto. Qed.

Lemma main_Ok fuel header bindings r :
  main fuel header bindings = Ok r →
  ∃ cf st,
    get_c_functions header = Ok cf
    ∧ get_rust_functions fuel bindings cf = Ok st
    ∧ errored r = negb (rs_errors st =? 0)
    ∧ not_bound r = Py.sort (keys (rs_c_func st))
    ∧ extra r = Py.sort (elements (rs_functions st))
    ∧ stdout r = rs_printed st ++ ["==> Not bound functions:"] ++ not_bound r
                 ++ [""] ++ ["==> Extra (???) rust functions:"] ++ extra r
    ∧ status r = exit_status (errored r) (rs_c_func st) (rs_functions st).
Proof.
  unfold main. intros H. inv_bind H. inv_bind H. injection H as <-.
  by exists a, a0.
Qed.

Lemma elem_of_not_bound fuel header bindings r x :
  main fuel header bindings = Ok r →
  x ∈ not_bound r ↔
  ∃ cf st, get_c_functions header = Ok cf
           ∧ get_rust_functions fuel bindings cf = Ok st
           ∧ is_Some (rs_c_func st !! x).
Proof.
  intros (cf & st & Hc & Hr & _ & -> & _)%main_Ok.
  rewrite elem_of_sort, elem_of_keys. split; [by exists cf, st|].
  intros (cf' & st' & Hc' & Hr' & Hx). congruence.
Qed.

(** The two lists of the report come out in order and without repeats. *)
Lemma report_sorted fuel header bindings r :
  main fuel header bindings = Ok r →
  Sorted String.le (not_bound r) ∧ NoDup (not_bound r)
  ∧ Sorted String.le (extra r) ∧ NoDup (extra r).
Proof.
  intros (cf & st & _ & _ & _ & -> & -> & _)%main_Ok.
  split_and!; try apply sort_sorted.
  - unfold Py.sort. rewrite merge_sort_Permutation. apply NoDup_keys.
  - unfold Py.sort. rewrite merge_sort_Permutation. apply NoDup_elements.
Qed.

(** Nothing is printed ahead of the two lists unless a comparison failed. *)
Lemma errored_printed fuel bindings cf st :
  get_rust_functions fuel bindings cf = Ok st →
  rs_errors st = 0 ↔ rs_printed st = [].
Proof.
  intros H%r_loop_steps%r_steps_le. by apply H.
Qed.

End report.

(** ** Whole runs *)

Section runs.

Implicit Types (content header bindings : list string) (line name : string).
Implicit Types (fs cf : gmap string c_sig) (st : rust_scan) (r : report).

(** A declaration that the scan of the header comes to is in the table. *)
Lemma header_declares header line content fs ret raw text cf :
  rtc c_step (header, ∅) (line :: content, fs) →
  Py.contains line " GEOS_DLL " = true →
  c_head line = Ok (ret, raw, text) →
  Py.strip raw ≠ "" → Py.strip raw ∉ TO_IGNORE →
  get_c_functions header = Ok cf →
  is_Some (cf !! Py.strip raw).
Proof.
  intros Hreach Hm Hh Hne Hig Hc.
  destruct (c_loop_reach _ _ _ _ _ _ Hreach Hc) as [[|m] Hloop];
    simpl in Hloop; [done|].
  inv_bind Hloop. destruct a as [c2 fs2].
  apply c_body_Ok in E as [_ [[Hm' _]|[_ (ret' & raw' & text' & args & Hh' & ->)]]];
    [congruence|].
  rewrite Hh in Hh'. injection Hh' as <- <- <-.
  apply c_loop_steps, c_steps_dom in Hloop. simpl in Hloop.
  apply elem_of_dom, Hloop, elem_of_dom. unfold c_record.
  apply length_pos_iff in Hne as ->. rewrite bool_decide_eq_true_2 by done.
  simpl. by rewrite lookup_insert_eq.
Qed.

(** From a state that the scan of the bindings comes to, the scan takes
    one more turn and runs on to its end. *)
Lemma scan_turn fuel n c0 st0 line content st st' :
  rtc (r_step fuel) (c0, st0) (line :: content, st) →
  r_loop fuel n c0 st0 = Ok st' →
  ∃ c2 st2, r_body fuel line content st = Ok (c2, st2)
            ∧ rtc (r_step fuel) (c2, st2) ([], st').
Proof.
  intros Hreach Hloop.
  destruct (r_loop_reach _ _ _ _ _ _ _ Hreach Hloop) as [[|m] Hl];
    simpl in Hl; [done|].
  inv_bind Hl. destruct a as [c2 st2]. exists c2, st2.
  split; [done | by eapply r_loop_steps].
Qed.

Lemma r_turn_absent fuel line content st c2 st2 name parts :
  r_body fuel line content st = Ok (c2, st2) →
  Py.contains line " fn " = true → r_head line = Ok (name, parts) →
  name ≠ "" → rs_c_func st !! name = None →
  name ∈ rs_functions st2 ∧ rs_c_func st2 = rs_c_func st.
Proof.
  intros [_ [[? _]|[_ [c3 Hd]]]]%r_body_Ok Hc Hh Hne Hno; [congruence|].
  apply r_declaration_Ok in Hd as (name' & parts' & Hh' & _ & Hd).
  rewrite Hh in Hh'. injection Hh' as <- <-. rewrite Hno in Hd.
  apply length_pos_iff in Hne. rewrite Hne in Hd. subst st2. simpl.
  split; [|done]. apply elem_of_union_l. by apply elem_of_singleton.
Qed.

Lemma r_turn_present fuel line content st c2 st2 name parts :
  r_body fuel line content st = Ok (c2, st2) →
  Py.contains line " fn " = true → r_head line = Ok (name, parts) →
  is_Some (rs_c_func st !! name) →
  rs_c_func st2 !! name = None.
Proof.
  intros [_ [[? _]|[_ [c3 Hd]]]]%r_body_Ok Hc Hh [sig Hin]; [congruence|].
  apply r_declaration_Ok in Hd as (name' & parts' & Hh' & _ & Hd).
  rewrite Hh in Hh'. injection Hh' as <- <-. rewrite Hin in Hd.
  destruct Hd as (same & out & _ & ->). simpl. apply lookup_delete_eq.
Qed.

(** A name that is declared where the table has no entry for it ends up
    in the set of the scan. *)
Lemma extra_at fuel n c0 st0 line content st st' name parts :
  rtc (r_step fuel) (c0, st0) (line :: content, st) →
  r_loop fuel n c0 st0 = Ok st' →
  Py.contains line " fn " = true → r_head line = Ok (name, parts) →
  name ≠ "" → rs_c_func st !! name = None →
  name ∈ rs_functions st'.
Proof.
  intros Hreach Hloop Hc Hh Hne Hno.
  destruct (scan_turn _ _ _ _ _ _ _ _ Hreach Hloop) as (c2 & st2 & Hb & Hrest).
  destruct (r_turn_absent _ _ _ _ _ _ _ _ Hb Hc Hh Hne Hno) as [Hin _].
  apply r_steps_le in Hrest as [_ Hsub _ _]. by apply Hsub.
Qed.

Lemma status_of_extra fuel header bindings r x :
  main fuel header bindings = Ok r → x ∈ extra r → status r = 1.
Proof.
  intros Hmain Hx.
  destruct (main_Ok _ _ _ _ Hmain) as (cf & st & _ & _ & _ & _ & He & _ & Hs).
  destruct (exit_status_range (errored r) (rs_c_func st) (rs_functions st))
    as [H0|H1]; [|congruence].
  apply exit_status_zero in H0 as (_ & _ & H0).
  rewrite He, elem_of_sort, H0, elements_empty in Hx. by apply elem_of_nil in Hx.
Qed.

Lemma status_of_not_bound fuel header bindings r x :
  main fuel header bindings = Ok r → x ∈ not_bound r → status r = 1.
Proof.
  intros Hmain Hx.
  destruct (main_Ok _ _ _ _ Hmain) as (cf & st & _ & _ & _ & Hn & _ & _ & Hs).
  destruct (exit_status_range (errored r) (rs_c_func st) (rs_functions st))
    as [H0|H1]; [|congruence].
  apply exit_status_zero in H0 as (_ & H0 & _).
  rewrite Hn, elem_of_sort, H0 in Hx. unfold keys in Hx.
  rewrite map_to_list_empty in Hx. by apply elem_of_nil in Hx.
Qed.

End runs.

(** ** Where a run can be cut short *)

Section timeout.

Implicit Types (content : list string) (st : rust_scan).

Lemma bind_Timeout {A B} (m : result A) (k : A → result B) :
  m ≫= k = Timeout → m = Timeout ∨ ∃ a, m = Ok a ∧ k a = Timeout.
Proof. destruct m as [a| |]; simpl; [right; by exists a | done | by left]. Qed.

Lemma convert_all_Timeout fuel c_types :
  convert_all fuel c_types = Timeout → starved fuel.
Proof.
  induction c_types as [|x l IH]; simpl; [done|].
  intros [H|(y & _ & [H|(ys & _ & H)]%bind_Timeout)]%bind_Timeout;
    [by exists x | by apply IH | done].
Qed.

Lemma compare_Timeout fuel name sig rust_args ret_type :
  compare_rust_and_c_funcs fuel name sig rust_args ret_type = Timeout →
  starved fuel.
Proof.
  unfold compare_rust_and_c_funcs.
  intros [H|(ys & _ & [H|(y & _ & H)]%bind_Timeout)]%bind_Timeout.
  - by eapply convert_all_Timeout.
  - by exists sig.2.
  - by destruct (negb _), (negb _).
Qed.

Lemma r_continuation_no_timeout content args :
  r_continuation content args ≠ Timeout.
Proof.
  revert args. induction content as [|line content IH]; intros args; simpl;
    [done|].
  apply bind_no_timeout; [apply index_no_timeout | intros text _].
  by destruct (Py.endswith line ");" || Py.contains line ") -> ").
Qed.

Lemma r_body_Timeout fuel line content' st :
  r_body fuel line content' st = Timeout → starved fuel.
Proof.
  unfold r_body. destruct (Py.contains line " fn "); simpl; [|done].
  intros [H|([c st'] & _ & H)]%bind_Timeout; [|done].
  unfold r_declaration in H.
  apply bind_Timeout in H as [H|([name parts] & _ & H)].
  { unfold r_head in H.
    apply bind_Timeout in H as [H|(? & _ & H)]; [by apply index_no_timeout in H|].
    apply bind_Timeout in H as [H|(? & _ & H)]; [by apply index_no_timeout in H|].
    done. }
  destruct (rs_c_func st !! name) as [sig|]; [|done].
  apply bind_Timeout in H as [H|(? & _ & H)]; [by apply index_no_timeout in H|].
  apply bind_Timeout in H as [H|(? & _ & H)]; [by apply index_no_timeout in H|].
  apply bind_Timeout in H as [H|([args c] & _ & H)].
  { destruct (negb _ && negb _); [by apply r_continuation_no_timeout in H | done]. }
  apply bind_Timeout in H as [H|(last & _ & H)]; [by apply index_no_timeout in H|].
  apply bind_Timeout in H as [H|(ret & _ & H)].
  { destruct (get_rust_ret_type_total last) as [? Hr]. congruence. }
  apply bind_Timeout in H as [H|([same out] & _ & H)]; [|done].
  by eapply compare_Timeout.
Qed.

Lemma r_loop_Timeout fuel n content st :
  length content ≤ n → r_loop fuel n content st = Timeout → starved fuel.
Proof.
  revert content st. induction n as [|n IH]; intros [|line content] st Hn;
    simpl in *; try done; try lia.
  intros [H|([c2 st2] & Hb & H)]%bind_Timeout; [by eapply r_body_Timeout|].
  apply r_body_Ok in Hb as [Hs%suffix_length _]. eapply IH; [|done]. lia.
Qed.

(** A run that is cut short was cut short in the translator. *)
Lemma main_Timeout fuel header bindings :
  main fuel header bindings = Timeout → starved fuel.
Proof.
  unfold main. intros [H|(cf & _ & [H|(st & _ & H)]%bind_Timeout)]%bind_Timeout.
  - by apply get_c_functions_no_timeout in H.
  - by eapply r_loop_Timeout.
  - done.
Qed.

End timeout.

(** More fuel does not change what the translator returns. *)
Lemma marker_loop_more n m ct r :
  marker_loop n ct = r → r ≠ Timeout → n ≤ m → marker_loop m ct = r.
Proof.
  revert m ct. induction n as [|n IH]; intros m ct H Hr Hm;
    rewrite marker_loop_eq in H; rewrite marker_loop_eq;
    destruct (Py.pop ct) as [[init last]|]; simpl in *; try done;
    destruct (Py.endswith last "*const"); try done.
  destruct m as [|m]; [lia|]. apply IH; [done..|lia].
Qed.

Lemma convert_more n m c_type r :
  convert_c_to_rust n c_type = r → r ≠ Timeout → n ≤ m →
  convert_c_to_rust m c_type = r.
Proof.
  unfold convert_c_to_rust. destruct (const_loop _ _ _ _) as [is_const ct].
  destruct (pointer_loop _ _ _) as [ct'| |]; simpl; try done.
  intros H Hr Hm. destruct (marker_loop n ct') as [ct''| |] eqn:E.
  - by rewrite (marker_loop_more n m ct' (Ok ct'')).
  - by rewrite (marker_loop_more n m ct' (Raise e)).
  - by subst r.
Qed.

(** ** The exit status of the process *)

Lemma process_status_zero fuel header bindings :
  process_status (main fuel header bindings) = Some 0 ↔
  ∃ r, main fuel header bindings = Ok r ∧ status r = 0.
Proof.
  destruct (main fuel header bindings) as [r| |]; simpl; split.
  - intros [= H]. by exists r.
  - by intros (r' & [= <-] & ->).
  - done.
  - by intros (r' & [=] & _).
  - done.
  - by intros (r' & [=] & _).
Qed.

Lemma process_status_range fuel header bindings k :
  process_status (main fuel header bindings) = Some k → k = 0 ∨ k = 1.
Proof.
  destruct (main fuel header bindings) as [r| |] eqn:E; simpl; [|naive_solver..].
  intros [= <-].
  destruct (main_Ok _ _ _ _ E) as (cf & st & _ & _ & _ & _ & _ & _ & ->).
  apply exit_status_range.
Qed.

(** ** Sample runs *)

Example run_long :
  main 4 header_long bindings_long = Ok report_clean.
Proof. vm_compute. reflexivity. Qed.

Example header_long_table :
  get_c_functions header_long
  = Ok (<["GEOSBuffer" := (["const GEOSGeometry*"; "double"; "int"],
                           "GEOSGeometry*")]>
          (<["GEOSFree" := (["void*"], "void")]> ∅)).
Proof. vm_compute. reflexivity. Qed.

(** A comparison that fails still deletes the entry, and a second
    declaration of the name is then unknown. *)
Example run_twice : main 4 header_one bindings_twice = Ok report_twice.
Proof. vm_compute. reflexivity. Qed.

(** A declaration of the bindings that is not closed before the text ends
    stops the script: the line after the last one is read. *)
Example run_unclosed :
  main 4 header_one ["    pub fn GEOSFunc("] = Raise IndexError.
Proof. vm_compute. reflexivity. Qed.

(** ** Properties of whole runs *)

(** C1.  Take a run that reports.  If the scan of the header comes to a line
    with the export marker (the line is not taken for a continuation line
    of an earlier declaration), the head of the declaration is read, its
    name is nonempty and not on the deny-list, and no line of the bindings
    declares that name, then the name is in the table of the header, is in
    the list of functions that are not bound, once, among names of that
    table only, the list is printed under its heading, and the exit status
    is 1. *)
Theorem missing_binding_reported fuel header bindings line content fs
    ret raw text r :
  rtc c_step (header, ∅) (line :: content, fs) →
  Py.contains line " GEOS_DLL " = true →
  c_head line = Ok (ret, raw, text) →
  Py.strip raw ≠ "" →
  Py.strip raw ∉ TO_IGNORE →
  Forall (λ l, declares l (Py.strip raw) = false) bindings →
  main fuel header bindings = Ok r →
  Py.strip raw ∈ not_bound r
  ∧ NoDup (not_bound r)
  ∧ (∃ cf, get_c_functions header = Ok cf
           ∧ ∀ x, x ∈ not_bound r → is_Some (cf !! x))
  ∧ (∃ out, stdout r = out ++ ["==> Not bound functions:"] ++ not_bound r
                       ++ [""] ++ ["==> Extra (???) rust functions:"]
                       ++ extra r)
  ∧ status r = 1.
Proof.
  intros Hreach Hm Hh Hne Hig Hno Hmain.
  destruct (main_Ok _ _ _ _ Hmain) as (cf & st & Hc & Hr & _ & Hn & _ & Ho & _).
  pose proof (header_declares _ _ _ _ _ _ _ _ Hreach Hm Hh Hne Hig Hc) as Hin.
  pose proof (r_loop_steps _ _ _ _ _ Hr) as Hsteps.
  assert (Py.strip raw ∈ not_bound r) as Hx.
  { rewrite Hn, elem_of_sort, elem_of_keys.
    apply (r_steps_keep _ _ _ _ Hsteps); [|done].
    by apply Forall_forall. }
  split_and!.
  - done.
  - by destruct (report_sorted _ _ _ _ Hmain) as (_ & ? & _).
  - exists cf. split; [done|]. intros x.
    rewrite Hn, elem_of_sort, elem_of_keys.
    apply r_steps_le in Hsteps as [Hd _ _ _]. simpl in Hd.
    rewrite <- !elem_of_dom. apply Hd.
  - by exists (rs_printed st).
  - by eapply status_of_not_bound.
Qed.

Lemma missing_binding_reported_witness :
  rtc c_step (header_one, ∅)
    (["extern int GEOS_DLL GEOSFunc(const double * arg);"], ∅)
  ∧ main 4 header_one bindings_other = Ok report_missing
  ∧ "GEOSFunc" ∈ not_bound report_missing
  ∧ status report_missing = 1.
Proof.
  assert (rtc c_step (header_one, ∅)
            (["extern int GEOS_DLL GEOSFunc(const double * arg);"], ∅)) as Hreach.
  { eapply rtc_l; [|apply rtc_refl].
    eexists _, _. split; [reflexivity | vm_compute; reflexivity]. }
  split; [exact Hreach|]. split; [vm_compute; reflexivity|].
  assert (Py.strip "GEOSFunc" ∉ TO_IGNORE) as Hig.
  { vm_compute. intros H.
    repeat (apply elem_of_cons in H as [H|H]; [discriminate|]).
    by apply elem_of_nil in H. }
  pose proof (missing_binding_reported 4 header_one bindings_other
                _ _ _ "int" "GEOSFunc" "const double * arg);" report_missing
                Hreach) as H.
  destruct H as (H1 & _ & _ & _ & H2).
  - vm_compute; reflexivity.
  - vm_compute; reflexivity.
  - vm_compute; discriminate.
  - exact Hig.
  - repeat constructor.
  - vm_compute; reflexivity.
  - split; [exact H1 | exact H2].
Defined.

(** C1, as stated, fails on the code: a declaration whose first line does
    not end in [');'] (here a space follows) takes the next line for a
    continuation line, so the declaration on that line is never read.  Its
    name is off the deny-list and no line of the bindings declares it, yet
    it is not in the table and not reported; with a binding that agrees
    with what was recorded for the first declaration the run ends with
    status 0. *)
Lemma swallowed_declaration_not_reported :
  "extern int GEOS_DLL GEOSFunc(int b);" ∈ header_swallowed
  ∧ Py.contains "extern int GEOS_DLL GEOSFunc(int b);" " GEOS_DLL " = true
  ∧ c_head "extern int GEOS_DLL GEOSFunc(int b);"
    = Ok ("int", "GEOSFunc", "int b);")
  ∧ ("GEOSFunc" ∉ TO_IGNORE)
  ∧ Forall (λ l, declares l "GEOSFunc" = false) bindings_swallowed
  ∧ get_c_functions header_swallowed
    = Ok (<["GEOSInit" := (["int"; "extern int GEOS_DLL GEOSFunc(int"],
                          "void")]> ∅)
  ∧ main 4 header_swallowed bindings_swallowed = Ok report_clean
  ∧ ("GEOSFunc" ∉ not_bound report_clean)
  ∧ status report_clean = 0.
Proof.
  split_and!.
  - right. left.
  - reflexivity.
  - reflexivity.
  - intros H. repeat (apply elem_of_cons in H as [H|H]; [discriminate|]).
    by apply elem_of_nil in H.
  - repeat constructor.
  - vm_compute. reflexivity.
  - vm_compute. reflexivity.
  - by intros ?%elem_of_nil.
  - reflexivity.
Qed.

(** C2.  For a run that reports, the exit status is 0 exactly when no
    comparison failed, no function of the header is left without a binding
    and no name of the bindings is unknown; otherwise it is 1.  No
    comparison failed exactly when nothing was printed ahead of the two
    lists. *)
Theorem exit_status_iff fuel header bindings r :
  main fuel header bindings = Ok r →
  (status r = 0 ↔ errored r = false ∧ not_bound r = [] ∧ extra r = [])
  ∧ (status r ≠ 0 → status r = 1)
  ∧ (errored r = false ↔
     stdout r = ["==> Not bound functions:"] ++ not_bound r ++ [""]
                ++ ["==> Extra (???) rust functions:"] ++ extra r).
Proof.
  intros Hmain.
  destruct (main_Ok _ _ _ _ Hmain)
    as (cf & st & Hc & Hr & He & Hn & Hx & Ho & Hs).
  split_and!.
  - rewrite Hs, exit_status_zero, Hn, Hx, !sort_nil_iff, keys_nil_iff.
    rewrite elements_empty_iff, (leibniz_equiv_iff (rs_functions st) ∅). done.
  - rewrite Hs.
    destruct (exit_status_range (errored r) (rs_c_func st) (rs_functions st));
      [done | congruence].
  - rewrite Ho, He, negb_false_iff, Nat.eqb_eq, (errored_printed _ _ _ _ Hr).
    split; [by intros -> | intros H].
    by apply (app_inv_tail _ _ []) in H.
Qed.

Lemma exit_status_iff_witness :
  main 4 header_one ("/* bindings */" :: bindings_match) = Ok report_clean
  ∧ (status report_clean = 0 ↔
     errored report_clean = false ∧ not_bound report_clean = []
     ∧ extra report_clean = []).
Proof.
  split; [vm_compute; reflexivity|].
  refine (proj1 (exit_status_iff 4 header_one ("/* bindings */" :: bindings_match)
                   report_clean _)).
  vm_compute; reflexivity.
Defined.

(** C8.  A name of the deny-list has no entry in the table of the header
    and is not in the list of functions that are not bound, whatever the
    bindings are. *)
Theorem deny_listed_never_missing fuel header bindings name r :
  name ∈ TO_IGNORE →
  main fuel header bindings = Ok r →
  (∃ cf, get_c_functions header = Ok cf ∧ cf !! name = None)
  ∧ name ∉ not_bound r.
Proof.
  intros Hig Hmain.
  destruct (main_Ok _ _ _ _ Hmain) as (cf & st & Hc & Hr & _ & Hn & _).
  pose proof (get_c_functions_ignore _ _ _ Hc Hig) as Hno.
  split; [by exists cf|].
  rewrite Hn, elem_of_sort, elem_of_keys, <- elem_of_dom.
  apply r_loop_steps, r_steps_le in Hr as [Hd _ _ _]. simpl in Hd.
  intros Hin%Hd%elem_of_dom. rewrite Hno in Hin. by destruct Hin.
Qed.

Lemma deny_listed_never_missing_witness :
  "finishGEOS_r" ∈ TO_IGNORE
  ∧ main 4 header_retired [] = Ok report_clean
  ∧ "finishGEOS_r" ∉ not_bound report_clean.
Proof.
  assert ("finishGEOS_r" ∈ TO_IGNORE) as Hig.
  { unfold TO_IGNORE. right. left. }
  split; [exact Hig|]. split; [vm_compute; reflexivity|].
  refine (proj2 (deny_listed_never_missing 4 header_retired [] "finishGEOS_r"
                   report_clean Hig _)).
  vm_compute; reflexivity.
Defined.

(** C10.  Take a run that reports, and a line with [' fn '] that the scan
    of the bindings comes to, declaring a nonempty name.
    - If the table has no entry for the name at that moment, the name is in
      the list of unknown names and the exit status is 1.
    - That is the case for every name of the deny-list.
    - If the table has an entry, the name is not in the list of functions
      that are not bound, whatever the comparison said; and at any later
      line that declares the name again the table has no entry for it, so
      the name is in the list of unknown names. *)
Theorem extra_binding_reported fuel header bindings cf line content st
    name parts r :
  get_c_functions header = Ok cf →
  rtc (r_step fuel) (bindings, r_start cf) (line :: content, st) →
  Py.contains line " fn " = true →
  r_head line = Ok (name, parts) →
  name ≠ "" →
  main fuel header bindings = Ok r →
  (rs_c_func st !! name = None → name ∈ extra r ∧ status r = 1)
  ∧ (name ∈ TO_IGNORE → rs_c_func st !! name = None)
  ∧ (is_Some (rs_c_func st !! name) →
     (name ∉ not_bound r)
     ∧ (∀ s1 line2 content2 st2 parts2,
          r_step fuel (line :: content, st) s1 →
          rtc (r_step fuel) s1 (line2 :: content2, st2) →
          Py.contains line2 " fn " = true →
          r_head line2 = Ok (name, parts2) →
          rs_c_func st2 !! name = None ∧ name ∈ extra r ∧ status r = 1)).
Proof.
  intros Hc Hreach Hfn Hh Hne Hmain.
  destruct (main_Ok _ _ _ _ Hmain)
    as (cf' & st' & Hc' & Hr & _ & Hn & Hx & _ & _).
  rewrite Hc in Hc'. injection Hc' as <-.
  assert (∀ line2 content2 st2 parts2,
            rtc (r_step fuel) (bindings, r_start cf) (line2 :: content2, st2) →
            Py.contains line2 " fn " = true →
            r_head line2 = Ok (name, parts2) →
            rs_c_func st2 !! name = None →
            name ∈ extra r ∧ status r = 1) as Hextra.
  { intros line2 content2 st2 parts2 Hreach2 Hfn2 Hh2 Hno.
    assert (name ∈ extra r) as Hin.
    { rewrite Hx, elem_of_sort, elem_of_elements. by eapply extra_at. }
    split; [done | by eapply status_of_extra]. }
  split_and!.
  - intros Hno. by eapply Hextra.
  - intros Hig. apply r_steps_le in Hreach as [Hd _ _ _]. simpl in Hd.
    apply not_elem_of_dom. intros Hin%Hd%elem_of_dom.
    rewrite (get_c_functions_ignore _ _ _ Hc Hig) in Hin. by destruct Hin.
  - intros Hin.
    destruct (scan_turn _ _ _ _ _ _ _ _ Hreach Hr) as (c2 & st2 & Hb & Hrest).
    pose proof (r_turn_present _ _ _ _ _ _ _ _ Hb Hfn Hh Hin) as Hgone.
    split.
    + rewrite Hn, elem_of_sort, elem_of_keys, <- elem_of_dom.
      apply r_steps_le in Hrest as [Hd _ _ _]. simpl in Hd.
      intros Hk%Hd. by apply not_elem_of_dom in Hgone.
    + intros s1 line2 content2 st3 parts2 (l & c & Heq & Hb') Hlater Hfn2 Hh2.
      simpl in Heq, Hb'. injection Heq as <- <-. rewrite Hb in Hb'. injection Hb' as <-.
      assert (rs_c_func st3 !! name = None) as Hno.
      { apply r_steps_le in Hlater as [Hd _ _ _]. simpl in Hd.
        apply not_elem_of_dom. intros Hk%Hd. by apply not_elem_of_dom in Hgone. }
      split; [done|]. eapply Hextra; [|done..].
      etrans; [exact Hreach|]. eapply rtc_l; [|exact Hlater].
      by exists line, content.
Qed.

Lemma extra_binding_reported_witness :
  get_c_functions header_one = Ok table_one
  ∧ rtc (r_step 4) (bindings_twice, r_start table_one)
      (["    pub fn GEOSFunc(arg: *const c_double) -> c_int;"], scan_twice)
  ∧ main 4 header_one bindings_twice = Ok report_twice
  ∧ rs_c_func scan_twice !! "GEOSFunc" = None
  ∧ "GEOSFunc" ∈ extra report_twice
  ∧ status report_twice = 1.
Proof.
  assert (rtc (r_step 4) (bindings_twice, r_start table_one)
            (["    pub fn GEOSFunc(arg: *const c_double) -> c_int;"],
             scan_twice)) as Hreach.
  { eapply rtc_l; [|apply rtc_refl].
    eexists _, _. split; [reflexivity | vm_compute; reflexivity]. }
  split; [vm_compute; reflexivity|]. split; [exact Hreach|].
  split; [vm_compute; reflexivity|]. split; [vm_compute; reflexivity|].
  refine (proj1 (extra_binding_reported 4 header_one bindings_twice table_one
                   _ [] scan_twice "GEOSFunc"
                   ["GEOSFunc"; "arg: *const c_double) -> c_int;"]
                   report_twice _ Hreach _ _ _ _) _).
  - vm_compute; reflexivity.
  - vm_compute; reflexivity.
  - vm_compute; reflexivity.
  - discriminate.
  - vm_compute; reflexivity.
  - vm_compute; reflexivity.
Defined.

(** ** Properties of the translator and of the comparison *)

Lemma convert_void fuel : convert_c_to_rust fuel "void" = Ok "c_void".
Proof. by destruct fuel. Qed.

(** C3.  If the translated parameters of a C signature, joined by commas,
    are the joined parameters of the binding, the C return type is [void]
    and the binding has no return type, the comparison succeeds and prints
    nothing.  The translator itself turns [void] into [c_void]; it is the
    comparison that replaces [c_void] by the empty string. *)
Theorem void_matches_no_return fuel name c_args converted rust_args :
  convert_all fuel c_args = Ok converted →
  Py.join "," converted = Py.join "," rust_args →
  compare_rust_and_c_funcs fuel name (c_args, "void") rust_args ""
  = Ok (true, [])
  ∧ convert_c_to_rust fuel "void" = Ok "c_void".
Proof.
  intros Hargs Hjoin. split; [|apply convert_void].
  unfold compare_rust_and_c_funcs. simpl. rewrite Hargs. simpl.
  rewrite convert_void. simpl. by rewrite Hjoin, String.eqb_refl.
Qed.

Lemma void_matches_no_return_witness :
  convert_all 4 ["void *"; "const char *"] = Ok ["*mut c_void"; "*const c_char"]
  ∧ Py.join "," ["*mut c_void"; "*const c_char"]
    = Py.join "," ["*mut c_void"; "*const c_char"]
  ∧ compare_rust_and_c_funcs 4 "GEOSFree_r" (["void *"; "const char *"], "void")
      ["*mut c_void"; "*const c_char"] ""
    = Ok (true, []).
Proof.
  split; [vm_compute; reflexivity|]. split; [reflexivity|].
  refine (proj1 (void_matches_no_return 4 "GEOSFree_r" ["void *"; "const char *"]
                   ["*mut c_void"; "*const c_char"]
                   ["*mut c_void"; "*const c_char"] _ _)).
  - vm_compute; reflexivity.
  - reflexivity.
Defined.

(** C5.  Whatever the fuel, [const double *] becomes [*const c_double] and
    [double *] becomes [*mut c_double]: the marker [*const] or [*mut],
    then the same rest, whose only token is [c_double]. *)
Theorem const_and_mut_pointer fuel :
  ∃ rest,
    convert_c_to_rust fuel "const double *" = Ok ("*const" +:+ rest)
    ∧ convert_c_to_rust fuel "double *" = Ok ("*mut" +:+ rest)
    ∧ rest = " c_double".
Proof. exists " c_double". by destruct fuel. Qed.

(** The loop that peels [*const] never leaves on the single token
    [*const]: a turn gives back the list it started from. *)
Lemma marker_loop_star_const fuel : marker_loop fuel ["*const"] = Timeout.
Proof.
  induction fuel as [|fuel IH]; [done|]. rewrite marker_loop_eq. exact IH.
Qed.

Lemma convert_star_const fuel : convert_c_to_rust fuel "*const" = Timeout.
Proof.
  unfold convert_c_to_rust.
  change (const_loop 0 (Py.split (Py.strip "*const") " ") false [])
    with (false, ["*const"]).
  cbv iota beta.
  change (pointer_loop (last_len ["*const"]) false ["*const"])
    with (Ok (A := list string) ["*const"]).
  simpl. by rewrite marker_loop_star_const.
Qed.

Lemma main_hangs fuel : main fuel header_array bindings_array = Timeout.
Proof.
  unfold main.
  assert (get_c_functions header_array
          = Ok (<["GEOSFunc" := (["*const"; "int"], "int")]> ∅)) as ->
    by (vm_compute; reflexivity).
  simpl. unfold get_rust_functions, bindings_array. 
  cbn [length r_loop].
  set (line := "    pub fn GEOSFunc(x: *const c_double, n: c_int) -> c_int;").
  set (cf := <["GEOSFunc" := (["*const"; "int"], "int")]> ∅ : gmap string c_sig).
  assert (r_body fuel line [] (r_start cf) = Timeout) as ->; [|done].
  unfold r_body.
  replace (Py.contains line " fn ") with true by reflexivity. cbn [negb].
  unfold r_declaration.
  assert (r_head line = Ok ("GEOSFunc", ["GEOSFunc"; "x: *const c_double, n: c_int) -> c_int;"])) as -> by (vm_compute; reflexivity).
  cbn [mbind result_bind rbind].
  replace (rs_c_func (r_start cf) !! "GEOSFunc") with (Some (["*const"; "int"], "int")) by reflexivity.
  cbn -[Py.contains Py.endswith Py.split Py.strip get_rust_args compare_rust_and_c_funcs get_rust_ret_type].
  replace (negb (Py.endswith line ");") && negb (Py.contains line ") -> ")) with false by reflexivity.
  cbn [mbind result_bind rbind index of_option lookup list_lookup].
  replace (get_rust_ret_type line) with (Ok (A:=string) "c_int") by reflexivity.
  cbn [mbind result_bind rbind].
  unfold compare_rust_and_c_funcs. cbn [fst snd convert_all].
  by rewrite convert_star_const.
Qed.

(** C9.  The translator does not terminate on [*const], which is what the
    extractor makes of the parameter [double[]]: whatever the fuel, the
    loop that peels [*const] is still running when the fuel is used up.
    A header with such a parameter and a binding for its function make the
    whole run hang. *)
Theorem convert_star_const_diverges :
  get_c_args "double[]" [] = Ok ["*const"]
  ∧ (∀ fuel, convert_c_to_rust fuel "*const" = Timeout)
  ∧ (∀ fuel, main fuel header_array bindings_array = Timeout).
Proof.
  split; [vm_compute; reflexivity|].
  split; [apply convert_star_const | apply main_hangs].
Qed.

(** C6.  A parameter whose last token is nothing but array brackets stops
    the extractor: the token that was popped as the name is not taken back
    from the type, since the type has by then been joined into a string,
    which has no [pop]. *)
Theorem anonymous_array_raises :
  get_c_args "double []" [] = Raise AttributeError
  ∧ get_c_functions header_brackets = Raise AttributeError
  ∧ main 4 header_brackets bindings_array = Raise AttributeError.
Proof. split_and!; vm_compute; reflexivity. Qed.

(** The same for every such parameter. *)
Lemma anonymous_array_raises_all part args params ty_name params' :
  Py.strip part ≠ "" →
  Py.pop (Py.split (Py.strip part) " ") = Some (params, ty_name) →
  array_loop (String.length ty_name) (Py.join " " params) ty_name
  = Ok (params', "") →
  get_c_args_part part args = Raise AttributeError.
Proof.
  intros Hne Hpop Hloop. unfold get_c_args_part.
  destruct (String.length _ =? 0) eqn:E.
  - by apply length_zero_iff in E.
  - rewrite Hpop. simpl. by rewrite Hloop.
Qed.

(** ** Array parameters *)

Lemma ident_char_plain c :
  ident_char c = true →
  Py.isspace c = false ∧ c ≠ " "%char ∧ c ≠ ","%char ∧ c ≠ "*"%char
  ∧ c ≠ "]"%char.
Proof.
  destruct c as [[] [] [] [] [] [] [] []]; vm_compute; intros H;
    try discriminate H; split_and!; congruence.
Qed.

Lemma identifier_chars name c :
  identifier name = true → c ∈ chars name → ident_char c = true.
Proof.
  intros [_ H]%andb_true_iff Hc. rewrite forallb_forall in H.
  apply H. by apply list_elem_of_In.
Qed.

Lemma named_array_extracted name :
  identifier name = true →
  get_c_args ("double " +:+ name +:+ "[]") [] = Ok ["double *const"].
Proof.
  intros Hid.
  assert (∀ c, c ∈ chars name → Py.isspace c = false ∧ c ≠ " "%char
            ∧ c ≠ ","%char ∧ c ≠ "*"%char ∧ c ≠ "]"%char) as Hch.
  { intros c Hc. by eapply ident_char_plain, identifier_chars. }
  assert (name ≠ "") as Hne.
  { apply andb_true_iff in Hid as [?%length_pos_iff _]. done. }
  set (text := "double " +:+ name +:+ "[]").
  assert (∀ c, c ∈ chars text → c ≠ ","%char) as Hcomma.
  { intros c. unfold text. rewrite !chars_app, !elem_of_app.
    intros [H|[H|H]]; [| by apply Hch |];
      simpl in H; repeat (apply elem_of_cons in H as [->|H]; [done|]);
      by apply elem_of_nil in H. }
  unfold get_c_args. rewrite (split_char_id _ _ Hcomma). simpl.
  unfold get_c_args_part.
  assert (Py.strip text = text) as ->.
  { unfold Py.strip, text.
    change ("double " +:+ name +:+ "[]")
      with (String "d" ("ouble " +:+ name +:+ "[]")).
    rewrite lstrip_id by done.
    change (String "d" ("ouble " +:+ name +:+ "[]"))
      with ("double " +:+ name +:+ "[]").
    rewrite <- string_app_assoc. by apply rstrip_app. }
  assert (Py.split text " " = ["double"; name +:+ "[]"]) as Hsplit.
  { unfold text. change ("double " +:+ name +:+ "[]")
      with ("double" +:+ String " " (name +:+ "[]")).
    rewrite split_char_app.
    - f_equal. apply split_char_id. intros c.
      rewrite chars_app, elem_of_app. intros [H|H]; [by apply Hch|].
      simpl in H; repeat (apply elem_of_cons in H as [->|H]; [done|]);
        by apply elem_of_nil in H.
    - intros c H. simpl in H.
      repeat (apply elem_of_cons in H as [->|H]; [done|]).
      by apply elem_of_nil in H. }
  replace (String.length text =? 0) with false by done.
  rewrite Hsplit. simpl.
  replace (String.length (name +:+ "[]")) with (S (S (String.length name)))
    by (rewrite string_length_app; simpl; lia).
  rewrite array_loop_eq, endswith_app.
  change 2 with (String.length "[]") at 1. rewrite drop_last_app.
  rewrite strip_no_space by (intros c Hc; by apply Hch).
  rewrite array_loop_eq.
  destruct (Py.endswith name "[]") eqn:E.
  { destruct (Hch "]"%char) as (_ & _ & _ & _ & ?); [|done].
    eapply endswith_chars; [done|]. right. left. }
  simpl. apply length_pos_iff in Hne as Hlen.
  destruct name as [|a name]; [done|]. simpl.
  destruct (Ascii.eqb_spec a "*") as [->|_].
  { destruct (Hch "*"%char) as (_ & _ & _ & ? & _); [left | done]. }
  done.
Qed.

(** C4, as amended.  A [double] array parameter written with a name,
    [double name[]] for an identifier [name], is extracted as the type
    [double *const]; with fuel for one turn of the peeling loop the
    translator turns that type into [*const c_double].  The translator has
    no rule for brackets: it returns the text [double[]] as it is. *)
Theorem named_array_is_const_pointer name fuel :
  identifier name = true →
  (∃ c_type,
     get_c_args ("double " +:+ name +:+ "[]") [] = Ok [c_type]
     ∧ c_type = "double *const"
     ∧ convert_c_to_rust (S fuel) c_type = Ok "*const c_double")
  ∧ convert_c_to_rust (S fuel) "double[]" = Ok "double[]".
Proof.
  intros Hid. split; [|by destruct fuel]. exists "double *const".
  split; [by apply named_array_extracted|]. split; [done|]. by destruct fuel.
Qed.

Lemma named_array_is_const_pointer_witness :
  identifier "coords" = true
  ∧ get_c_args "double coords[]" [] = Ok ["double *const"]
  ∧ convert_c_to_rust 1 "double *const" = Ok "*const c_double"
  ∧ convert_c_to_rust 1 "double[]" = Ok "double[]".
Proof.
  split; [reflexivity|].
  destruct (named_array_is_const_pointer "coords" 0 eq_refl)
    as [(c_type & H1 & -> & H2) H3].
  split; [exact H1|]. split; [exact H2 | exact H3].
Defined.

(** C4, as stated, fails on the code: the translator leaves the text
    [double[]] as it is, and the type that the extractor makes of the
    nameless parameter [double[]] is [*const], not [double *const]. *)
Lemma bare_array_not_const_pointer :
  convert_c_to_rust 4 "double[]" = Ok "double[]"
  ∧ convert_c_to_rust 4 "double *const" = Ok "*const c_double"
  ∧ convert_c_to_rust 4 "double[]" ≠ convert_c_to_rust 4 "double *const"
  ∧ get_c_args "double[]" [] = Ok ["*const"]
  ∧ convert_c_to_rust 4 "*const" ≠ convert_c_to_rust 4 "double *const".
Proof. split_and!; vm_compute; (reflexivity || discriminate). Qed.

(** ** Translating twice *)

Section idempotence.

Implicit Types (t s : string) (c : ascii) (l ct : list string).

Lemma filter_all {A} (P : A → Prop) `{!∀ x, Decision (P x)} (l : list A) :
  Forall P l → filter P l = l.
Proof.
  induction 1 as [|x l Hx _ IH]; [done|].
  by rewrite filter_cons_True, IH.
Qed.

Lemma substitute_elim (P : string → string → Prop) :
  P "int" "c_int" → P "char" "c_char" → P "void" "c_void" →
  P "double" "c_double" → P "float" "c_float" →
  (∀ t, substitute t = t → P t t) →
  ∀ t, P t (substitute t).
Proof.
  intros H1 H2 H3 H4 H5 H t. unfold substitute, inline_conv, dict_get.
  destruct (String.eqb_spec "int" t) as [<-|E1]; [done|].
  destruct (String.eqb_spec "char" t) as [<-|E2]; [done|].
  destruct (String.eqb_spec "void" t) as [<-|E3]; [done|].
  destruct (String.eqb_spec "double" t) as [<-|E4]; [done|].
  destruct (String.eqb_spec "float" t) as [<-|E5]; [done|].
  simpl. apply H. unfold substitute, inline_conv, dict_get.
  apply String.eqb_neq in E1, E2, E3, E4, E5.
  by rewrite E1, E2, E3, E4, E5.
Qed.

Lemma substitute_idemp t : substitute (substitute t) = substitute t.
Proof. by apply (substitute_elim (λ _ u, substitute u = u)). Qed.

Lemma substitute_inv t u :
  u ∈ ["const"; "unsigned"; ""] → substitute t = u → t = u.
Proof.
  intros Hu. revert u Hu. apply (substitute_elim (λ t v, ∀ u, u ∈ _ → v = u → t = u));
    try done; intros u Hu <-;
    repeat (apply elem_of_cons in Hu as [Hu|Hu]; [discriminate|]);
    by apply elem_of_nil in Hu.
Qed.

Lemma plain_substitute t : plain t → plain (substitute t).
Proof.
  apply (substitute_elim (λ t u, plain t → plain u)); try done; intros _ c Hc;
    simpl in Hc; repeat (apply elem_of_cons in Hc as [->|Hc]; [done|]);
    by apply elem_of_nil in Hc.
Qed.

Lemma plain_strip t : plain t → Py.strip t = t.
Proof. intros H. apply strip_no_space. intros c Hc. by apply H. Qed.

Lemma plain_no_suffix t p :
  plain t → "*"%char ∈ chars p → Py.endswith t p = false.
Proof.
  intros H Hp. destruct (Py.endswith t p) eqn:E; [|done].
  destruct (H "*"%char) as [_ ?]; [by eapply endswith_chars | done].
Qed.

Lemma const_loop_snd pos parts b acc :
  (const_loop pos parts b acc).2 = acc ++ filter (λ p, p ≠ "const") parts.
Proof.
  revert pos b acc. induction parts as [|p parts IH]; intros pos b acc; simpl.
  - by rewrite app_nil_r.
  - destruct (String.eqb_spec p "const") as [->|Hne].
    + rewrite IH. by rewrite filter_cons_False by (by intros ?).
    + rewrite IH, filter_cons_True by done. by rewrite <- app_assoc.
Qed.

Lemma subst_loop_plain ct :
  "unsigned" ∉ ct → subst_loop ct = Ok (substitute <$> ct).
Proof.
  induction ct as [|t ct IH]; intros H; simpl; [done|].
  destruct (String.eqb_spec t "unsigned") as [->|_].
  - destruct H. left.
  - rewrite IH; [done|]. intros ?. apply H. by right.
Qed.

(** The translator on a text without stars and without [unsigned]: the
    two peeling loops leave at once. *)
Lemma convert_plain fuel c_type :
  let ct := filter (λ p, p ≠ "const") (Py.split (Py.strip c_type) " ") in
  Forall plain ct → "unsigned" ∉ ct →
  convert_c_to_rust fuel c_type =
  if decide (ct = []) then Raise IndexError else Ok (Py.join " " (kept ct)).
Proof.
  intros ct Hplain Hun. unfold convert_c_to_rust.
  pose proof (const_loop_snd 0 (Py.split (Py.strip c_type) " ") false []) as Hc.
  destruct (const_loop _ _ _ _) as [is_const ct']. simpl in Hc. subst ct'.
  fold ct. destruct (decide (ct = [])) as [->|Hne]; [done|].
  destruct (Py.pop ct) as [[init last]|] eqn:Ep; [|by apply pop_None in Ep].
  assert (plain last) as Hlast.
  { apply pop_Some in Ep. rewrite Forall_forall in Hplain. apply Hplain.
    rewrite Ep. apply elem_of_app. right. left. }
  rewrite pointer_loop_eq, Ep. simpl.
  rewrite (plain_no_suffix last "*") by (done || left). simpl.
  rewrite marker_loop_eq, Ep. simpl.
  rewrite (plain_no_suffix last "*const") by (done || left). simpl.
  by rewrite subst_loop_plain.
Qed.

Lemma contains_char s c : Py.contains s (String c "") = false → c ∉ chars s.
Proof.
  induction s as [|a s IH]; cbn [Py.contains Py.startswith chars].
  - intros _. apply not_elem_of_nil.
  - rewrite startswith_empty.
    destruct (Ascii.eqb_spec a c) as [->|Hne]; [done|]. simpl.
    intros H%IH [?|?]%elem_of_cons; [congruence | done].
Qed.

Lemma join_cons_cons d t t' l :
  Py.join d (t :: t' :: l) = t +:+ d +:+ Py.join d (t' :: l).
Proof. done. Qed.

Lemma join_nonempty d t l : t ≠ "" → Py.join d (t :: l) ≠ "".
Proof.
  destruct t as [|a t]; [done|]. intros _. destruct l; [done|].
  by rewrite join_cons_cons, app_cons.
Qed.

Lemma rstrip_join l : tokens l → Py.rstrip (Py.join " " l) = Py.join " " l.
Proof.
  induction 1 as [|t l [Hp Hne] Hl IH]; [done|].
  destruct l as [|t' l].
  - simpl. apply rstrip_no_space. intros c Hc. by apply Hp.
  - rewrite join_cons_cons, <- string_app_assoc.
    apply rstrip_app; [|done].
    apply join_nonempty. by apply Forall_cons in Hl as [[_ ?] _].
Qed.

Lemma strip_join l : tokens l → Py.strip (Py.join " " l) = Py.join " " l.
Proof.
  intros Hl. unfold Py.strip. destruct Hl as [|t l [Hp Hne] Hl]; [done|].
  assert (Py.lstrip (Py.join " " (t :: l)) = Py.join " " (t :: l)) as ->.
  { destruct t as [|a t]; [done|].
    assert (Py.isspace a = false) as Ha by (apply Hp; left).
    destruct l as [|t' l]; [by apply lstrip_id|].
    rewrite join_cons_cons, app_cons. by apply lstrip_id. }
  apply rstrip_join. by constructor.
Qed.

Lemma split_tokens l : l ≠ [] → tokens l → Py.split (Py.join " " l) " " = l.
Proof.
  intros Hne Hl. apply split_join; [done|].
  intros t c Ht Hc ->. unfold tokens in Hl. rewrite Forall_forall in Hl.
  destruct (Hl t Ht) as [Hp _]. by destruct (Hp _ Hc).
Qed.

Lemma kept_plain ct : Forall plain ct → kept ct = filter (λ x, x ≠ "") (substitute <$> ct).
Proof.
  intros H. unfold kept.
  rewrite (list_fmap_ext Py.strip id (substitute <$> ct)), list_fmap_id.
  - apply list_filter_iff. intros x. destruct x; simpl; [split; [lia | done]|].
    split; [done | lia].
  - intros i t [u [-> Hu]]%list_lookup_fmap_Some.
    apply plain_strip, plain_substitute. rewrite Forall_forall in H.
    eapply H, list_elem_of_lookup_2, Hu.
Qed.

Lemma kept_elem ct u :
  Forall plain ct → u ∈ kept ct → u ≠ "" ∧ ∃ t, t ∈ ct ∧ u = substitute t.
Proof.
  intros H. rewrite kept_plain by done.
  intros [Hne (t & -> & Ht)%list_elem_of_fmap]%list_elem_of_filter. eauto.
Qed.

Lemma kept_kept ct :
  Forall plain ct → "const" ∉ ct → "unsigned" ∉ ct →
  tokens (kept ct) ∧ ("const" ∉ kept ct) ∧ ("unsigned" ∉ kept ct)
  ∧ kept (kept ct) = kept ct.
Proof.
  intros Hp Hc Hu.
  assert (∀ u, u ∈ kept ct → u ≠ "" ∧ ∃ t, t ∈ ct ∧ u = substitute t) as Hk.
  { intros u. by apply kept_elem. }
  rewrite Forall_forall in Hp.
  assert (tokens (kept ct)) as Htok.
  { apply Forall_forall. intros u (Hne & t & Ht & ->)%Hk.
    split; [apply plain_substitute; by apply Hp | done]. }
  split_and!; [done | | |].
  - intros (_ & t & Ht & Heq)%Hk. symmetry in Heq.
    apply substitute_inv in Heq as ->; [done | left].
  - intros (_ & t & Ht & Heq)%Hk. symmetry in Heq.
    apply substitute_inv in Heq as ->; [done | right; left].
  - rewrite (kept_plain (kept ct)) by (eapply Forall_impl; [exact Htok|]; by intros ? []).
    rewrite (list_fmap_ext substitute id (kept ct)), list_fmap_id.
    + apply filter_all. eapply Forall_impl; [exact Htok|]. by intros ? [].
    + intros i u Hi. apply list_elem_of_lookup_2, Hk in Hi as (_ & t & _ & ->).
      apply substitute_idemp.
Qed.

End idempotence.

(** C7, as amended.  Take a C type text without a star, without the token
    [unsigned], and whose only white space is the space character.  Either
    every token is [const] and the translator raises [IndexError], or the
    translator returns a text and, applied to that text, returns it again. *)
Theorem convert_idempotent fuel c_type :
  Py.contains c_type "*" = false →
  "unsigned" ∉ Py.split (Py.strip c_type) " " →
  plain_spaces c_type →
  (Forall (λ t, t = "const") (Py.split (Py.strip c_type) " ")
   ∧ convert_c_to_rust fuel c_type = Raise IndexError)
  ∨ ∃ out, convert_c_to_rust fuel c_type = Ok out
           ∧ convert_c_to_rust fuel out = Ok out.
Proof.
  intros Hstar%contains_char Hun Hsp.
  set (parts := Py.split (Py.strip c_type) " ") in *.
  set (ct := filter (λ p, p ≠ "const") parts).
  assert (Forall plain parts) as Hparts.
  { apply Forall_forall. intros t Ht c Hc.
    destruct (split_char_chars _ _ _ _ Ht Hc) as [Hin%strip_chars Hne].
    split; [|by intros ->].
    destruct (Py.isspace c) eqn:E; [|done]. by destruct Hne; apply Hsp. }
  assert (Forall plain ct) as Hct.
  { apply Forall_forall. intros t [_ Ht]%list_elem_of_filter.
    rewrite Forall_forall in Hparts. by apply Hparts. }
  assert ("unsigned" ∉ ct) as Hun'.
  { by intros [_ ?]%list_elem_of_filter. }
  assert ("const" ∉ ct) as Hconst.
  { by intros [? _]%list_elem_of_filter. }
  pose proof (convert_plain fuel c_type Hct Hun') as Hconv. fold parts ct in Hconv.
  destruct (decide (ct = [])) as [Hnil|Hne].
  - left. split; [|done]. apply Forall_forall. intros t Ht.
    destruct (decide (t = "const")) as [|Hn]; [done|].
    assert (t ∈ ct) as Hin by by apply list_elem_of_filter.
    rewrite Hnil in Hin. by apply elem_of_nil in Hin.
  - right. exists (Py.join " " (kept ct)). split; [done|].
    destruct (kept_kept ct Hct Hconst Hun') as (Htok & Hc & Hu & Hkk).
    destruct (decide (kept ct = [])) as [Hk|Hk].
    { rewrite Hk. by destruct fuel. }
    assert (filter (λ p, p ≠ "const")
              (Py.split (Py.strip (Py.join " " (kept ct))) " ") = kept ct) as Hf.
    { rewrite strip_join, split_tokens by done. apply filter_all.
      apply Forall_forall. by intros t Ht ->. }
    rewrite convert_plain; rewrite Hf.
    + rewrite decide_False by done. by rewrite Hkk.
    + eapply Forall_impl; [exact Htok|]. by intros ? [].
    + done.
Qed.

Lemma convert_idempotent_witness :
  Py.contains "const double" "*" = false
  ∧ ("unsigned" ∉ Py.split (Py.strip "const double") " ")
  ∧ plain_spaces "const double"
  ∧ convert_c_to_rust 4 "const double" = Ok "c_double"
  ∧ convert_c_to_rust 4 "c_double" = Ok "c_double".
Proof.
  assert ("unsigned" ∉ Py.split (Py.strip "const double") " ") as Hun.
  { vm_compute. intros H.
    repeat (apply elem_of_cons in H as [H|H]; [discriminate|]).
    by apply elem_of_nil in H. }
  assert (plain_spaces "const double") as Hsp.
  { intros c Hc. simpl in Hc.
    repeat (apply elem_of_cons in Hc as [->|Hc]; [by vm_compute|]).
    by apply elem_of_nil in Hc. }
  split; [reflexivity|]. split; [exact Hun|]. split; [exact Hsp|].
  destruct (convert_idempotent 4 "const double" eq_refl Hun Hsp)
    as [[_ H]|(out & H1 & H2)].
  - vm_compute in H. discriminate H.
  - assert (out = "c_double") as ->.
    { vm_compute in H1. by injection H1 as <-. }
    split; [exact H1 | exact H2].
Defined.

(** C7, as stated, fails on the code: a tab after the space is kept in the
    token, which is therefore not substituted, and is stripped when the
    tokens are joined; the second translation then substitutes it. *)
Lemma tabbed_int_not_idempotent :
  Py.contains tabbed_int "*" = false
  ∧ Py.contains tabbed_int "unsigned" = false
  ∧ convert_c_to_rust 4 tabbed_int = Ok "int"
  ∧ convert_c_to_rust 4 "int" = Ok "c_int"
  ∧ convert_c_to_rust 4 "int" ≠ Ok "int".
Proof. split_and!; vm_compute; (reflexivity || discriminate). Qed.

(** ** Further properties of the script *)

Section strip_facts.

Implicit Types (s t u : string) (c : ascii) (l : list string).

Lemma lstrip_shorter s :
  Py.lstrip s = s ∨ String.length (Py.lstrip s) < String.length s.
Proof.
  induction s as [|c s IH]; simpl; [by left|].
  destruct (Py.isspace c); [|by left].
  right. pose proof (lstrip_length s). lia.
Qed.

Lemma rstrip_shorter s :
  Py.rstrip s = s ∨ String.length (Py.rstrip s) < String.length s.
Proof.
  induction s as [|c s IH]; simpl; [by left|].
  destruct IH as [->|IH].
  - destruct s; [|by left]. destruct (Py.isspace c); [right; simpl; lia | by left].
  - right. destruct (Py.rstrip s); simpl in *; [|lia].
    destruct (Py.isspace c); simpl; lia.
Qed.

Lemma strip_fixed u : Py.strip u = u → Py.lstrip u = u ∧ Py.rstrip u = u.
Proof.
  unfold Py.strip. intros H.
  destruct (lstrip_shorter u) as [Hl|Hl].
  - by rewrite Hl in H.
  - pose proof (rstrip_length (Py.lstrip u)). rewrite H in *. lia.
Qed.

Lemma lstrip_head s c t : Py.lstrip s = String c t → Py.isspace c = false.
Proof.
  induction s as [|a s IH]; simpl; [done|].
  destruct (Py.isspace a) eqn:E; [done|]. by intros [= <- _].
Qed.

Lemma rstrip_idemp s : Py.rstrip (Py.rstrip s) = Py.rstrip s.
Proof.
  induction s as [|c s IH]; simpl; [done|].
  destruct (Py.rstrip s) as [|a r] eqn:E.
  - destruct (Py.isspace c) eqn:Ec; simpl; [done|]. by rewrite Ec.
  - change (Py.rstrip (String c (String a r)))
      with (match Py.rstrip (String a r) with
            | "" => if Py.isspace c then "" else String c ""
            | r' => String c r'
            end).
    by rewrite IH.
Qed.

Lemma rstrip_keeps_head c t :
  Py.isspace c = false → ∃ r, Py.rstrip (String c t) = String c r.
Proof.
  intros Hc. simpl. destruct (Py.rstrip t) as [|a r]; rewrite ?Hc; eauto.
Qed.

Lemma strip_idemp s : Py.strip (Py.strip s) = Py.strip s.
Proof.
  unfold Py.strip. destruct (Py.lstrip s) as [|c t] eqn:E; [done|].
  apply lstrip_head in E.
  destruct (rstrip_keeps_head c t E) as [r Hr]. rewrite Hr.
  rewrite lstrip_id by done. by rewrite <- Hr, rstrip_idemp.
Qed.

(** A text that [strip] leaves alone and that is not empty begins with a
    character that is not white space. *)
Lemma strip_fixed_head u :
  u ≠ "" → Py.strip u = u → ∃ c t, u = String c t ∧ Py.isspace c = false.
Proof.
  intros Hne [Hl _]%strip_fixed. destruct u as [|c t]; [done|].
  exists c, t. split; [done|]. by eapply lstrip_head.
Qed.

Lemma strip_join_fixed l :
  Forall (λ u, u ≠ "" ∧ Py.strip u = u) l →
  Py.strip (Py.join " " l) = Py.join " " l.
Proof.
  intros Hl.
  assert (Py.rstrip (Py.join " " l) = Py.join " " l) as Hr.
  { induction Hl as [|u l [Hne Hu] Hl IH]; [done|].
    destruct l as [|u' l]; [by apply strip_fixed in Hu as [_ ?]|].
    change (Py.join " " (u :: u' :: l))
      with (u +:+ " " +:+ Py.join " " (u' :: l)).
    rewrite <- string_app_assoc. apply rstrip_app; [|done].
    apply Forall_cons in Hl as [[Hne' _] _].
    destruct u' as [|a u']; [done|]. by destruct l. }
  unfold Py.strip. destruct Hl as [|u l [Hne Hu] Hl]; [done|].
  destruct (strip_fixed_head u Hne Hu) as (c & t & -> & Hc).
  assert (∃ rest, Py.join " " (String c t :: l) = String c rest) as [rest Hj].
  { destruct l; [by exists t|]. by eexists. }
  rewrite Hj in *. by rewrite lstrip_id.
Qed.

End strip_facts.

(** X1.  Whenever the translator returns, what it returns has no white
    space at either end: stripping the result changes nothing. *)
Theorem convert_output_stripped fuel c_type out :
  convert_c_to_rust fuel c_type = Ok out → Py.strip out = out.
Proof.
  unfold convert_c_to_rust. destruct (const_loop _ _ _ _) as [is_const ct].
  intros H. inv_bind H. inv_bind H. inv_bind H. injection H as <-.
  apply strip_join_fixed, Forall_forall.
  intros u [Hlen (x & -> & _)%list_elem_of_fmap]%list_elem_of_filter.
  split; [|apply strip_idemp].
  intros Hx. rewrite Hx in Hlen. simpl in Hlen. lia.
Qed.

Lemma convert_output_stripped_witness :
  convert_c_to_rust 4 "const char * const *" = Ok "*const c_char *"
  ∧ Py.strip "*const c_char *" = "*const c_char *".
Proof.
  split; [vm_compute; reflexivity|].
  apply (convert_output_stripped 4 "const char * const *").
  vm_compute; reflexivity.
Defined.

Section pointers.

Implicit Types (s t u : string) (c : ascii) (l pre : list string) (b : bool).

Lemma stars_snoc n : stars (S n) = stars n +:+ "*".
Proof. induction n as [|n IH]; [done|]. simpl in *. by rewrite IH at 1. Qed.

Lemma stars_chars n c : c ∈ chars (stars n) → c = "*"%char.
Proof.
  induction n as [|n IH]; simpl; [by intros ?%elem_of_nil|].
  intros [->|?]%elem_of_cons; [done | auto].
Qed.

Lemma stars_length n : String.length (stars n) = n.
Proof. induction n as [|n IH]; simpl; [done | by rewrite IH]. Qed.

(** A token [x] without white space that does not end in a star, with [n]
    stars behind it. *)
Lemma starred_no_space x n c :
  (∀ c, c ∈ chars x → Py.isspace c = false) →
  c ∈ chars (x +:+ stars n) → Py.isspace c = false.
Proof.
  intros Hx. rewrite chars_app, elem_of_app.
  intros [?|Hc]; [auto|]. by apply stars_chars in Hc as ->.
Qed.

Lemma pointer_loop_stars f b pre x n :
  (∀ c, c ∈ chars x → Py.isspace c = false) →
  Py.endswith x "*" = false →
  n ≤ f →
  pointer_loop f b (pre ++ [x +:+ stars n])
  = Ok (replicate n (if b then "*const" else "*mut") ++ pre ++ [x]).
Proof.
  intros Hx Hend. revert f pre. induction n as [|n IH]; intros f pre Hf.
  - simpl. rewrite string_app_nil_r, pointer_loop_eq, pop_app. simpl.
    by rewrite Hend.
  - destruct f as [|f]; [lia|].
    rewrite stars_snoc, <- string_app_assoc.
    rewrite pointer_loop_eq, pop_app. cbn [mbind result_bind rbind of_option].
    rewrite endswith_app.
    change 1 with (String.length "*") at 1. rewrite drop_last_app.
    rewrite strip_no_space by (intros c; by apply starred_no_space).
    rewrite app_comm_cons, IH by lia.
    by rewrite replicate_S_end, <- app_assoc.
Qed.

Lemma identifier_word t : identifier t = true → word t.
Proof.
  intros Hid. split.
  - apply andb_true_iff in Hid as [?%length_pos_iff _]. done.
  - intros c Hc. by eapply ident_char_plain, identifier_chars.
Qed.

Lemma identifier_plain t : identifier t = true → plain t.
Proof.
  intros Hid c Hc.
  destruct (ident_char_plain c) as (? & _ & _ & ? & _);
    [by eapply identifier_chars | done].
Qed.

Lemma identifier_no_suffix t p :
  identifier t = true → "*"%char ∈ chars p → Py.endswith t p = false.
Proof. intros Hid. by apply plain_no_suffix, identifier_plain. Qed.

Lemma substitute_marker b :
  substitute (if b then "*const" else "*mut") = (if b then "*const" else "*mut").
Proof. by destruct b. Qed.

Lemma substitute_nonempty t : t ≠ "" → substitute t ≠ "".
Proof. intros Hne H. apply Hne. eapply substitute_inv; [|done]. do 2 right. left. Qed.

(** What the last three steps of the translator make of [n] markers and
    a plain token. *)
Lemma finish_markers fuel b n t :
  identifier t = true → t ≠ "unsigned" →
  (complete_type ← marker_loop fuel
                     (replicate n (if b then "*const" else "*mut") ++ [t]);
   complete_type ← subst_loop complete_type;
   Ok (Py.join " "
         (filter (λ x, 0 < String.length x) (Py.strip <$> complete_type))))
  = Ok (Py.join " "
          (replicate n (if b then "*const" else "*mut") ++ [substitute t])).
Proof.
  intros Hid Hun. set (m := if b then "*const" else "*mut").
  rewrite marker_loop_eq, pop_app. simpl.
  rewrite identifier_no_suffix by (done || left). simpl.
  rewrite subst_loop_plain.
  2:{ intros [Hin|Hin]%elem_of_app.
      - apply elem_of_replicate in Hin as [Hm _]. by destruct b.
      - apply list_elem_of_singleton in Hin. done. }
  simpl. rewrite !fmap_app, !fmap_replicate. simpl.
  unfold m at 1. rewrite substitute_marker. fold m.
  replace (Py.strip m) with m by (by destruct b).
  rewrite plain_strip by (by apply plain_substitute, identifier_plain).
  rewrite filter_all; [done|].
  apply Forall_app. split.
  - apply Forall_replicate. destruct b; simpl; lia.
  - apply Forall_singleton.
    assert (substitute t ≠ "") as Hne.
    { apply substitute_nonempty. by destruct (identifier_word t Hid). }
    destruct (substitute t); [done | simpl; lia].
Qed.

End pointers.

Section pointer_tokens.

Implicit Types (t : string) (b : bool).

Lemma starred_word t n : identifier t = true → word (t +:+ stars n).
Proof.
  intros [Hne Hsp]%identifier_word. split.
  - destruct t; [done|]. by rewrite app_cons.
  - intros c. by apply starred_no_space.
Qed.

Lemma word_no_blank t c : word t → c ∈ chars t → c ≠ " "%char.
Proof. intros [_ H] Hc ->. by specialize (H _ Hc). Qed.

Lemma word_strip t : word t → Py.strip t = t.
Proof. intros [_ H]. by apply strip_no_space. Qed.

Lemma word_split t : word t → Py.split t " " = [t].
Proof. intros H. apply split_char_id. intros c. by apply word_no_blank. Qed.

Lemma starred_ne t n u :
  identifier t = true → identifier u = true → t ≠ u → t +:+ stars n ≠ u.
Proof.
  intros Ht Hu Hne. destruct n as [|n]; [by rewrite string_app_nil_r|].
  intros Heq.
  destruct (ident_char_plain "*"%char) as (_ & _ & _ & ? & _); [|done].
  eapply identifier_chars; [exact Hu|]. rewrite <- Heq, chars_app.
  apply elem_of_app. right. left.
Qed.

(** The steps of the translator after the first loop, on one token that
    ends in [n] stars. *)
Lemma convert_tail fuel b t n :
  identifier t = true → t ≠ "unsigned" →
  (complete_type ← pointer_loop (last_len [t +:+ stars n]) b [t +:+ stars n];
   complete_type ← marker_loop fuel complete_type;
   complete_type ← subst_loop complete_type;
   Ok (Py.join " "
         (filter (λ x, 0 < String.length x) (Py.strip <$> complete_type))))
  = Ok (Py.join " "
          (replicate n (if b then "*const" else "*mut") ++ [substitute t])).
Proof.
  intros Hid Hun.
  rewrite (pointer_loop_stars _ b [] t n).
  - simpl. by apply finish_markers.
  - by apply identifier_word.
  - apply identifier_no_suffix; [done | left].
  - change [t +:+ stars n] with ([] ++ [t +:+ stars n]).
    rewrite last_len_app, string_length_app, stars_length. lia.
Qed.

Lemma convert_attached fuel t n :
  identifier t = true → t ≠ "const" → t ≠ "unsigned" →
  convert_c_to_rust fuel (t +:+ stars n)
  = Ok (Py.join " " (replicate n "*mut" ++ [substitute t])).
Proof.
  intros Hid Hc Hun. unfold convert_c_to_rust.
  pose proof (starred_word t n Hid) as Hw.
  rewrite word_strip, word_split by done. simpl.
  replace (String.eqb (t +:+ stars n) "const") with false.
  2:{ symmetry. apply String.eqb_neq. by apply starred_ne. }
  by apply (convert_tail fuel false).
Qed.

End pointer_tokens.

(** X2.  An identifier other than [const] and [unsigned], followed by [n]
    stars attached to it, translates to [n] pointer markers, a space after
    each, and then the substituted identifier.  The markers are [*const]
    when the text starts with [const] and a space, [*mut] otherwise.  The
    fuel plays no part. *)
Theorem pointer_depth fuel (b : bool) t n :
  identifier t = true → t ≠ "const" → t ≠ "unsigned" →
  convert_c_to_rust fuel ((if b then "const " else "") +:+ t +:+ stars n)
  = Ok (Py.join " "
          (replicate n (if b then "*const" else "*mut") ++ [substitute t])).
Proof.
  intros Hid Hc Hun. destruct b; [|by apply convert_attached].
  pose proof (starred_word t n Hid) as Hw.
  unfold convert_c_to_rust.
  assert (Py.strip ("const " +:+ t +:+ stars n) = "const " +:+ t +:+ stars n)
    as ->.
  { unfold Py.strip.
    change ("const " +:+ t +:+ stars n)
      with (String "c" ("onst " +:+ t +:+ stars n)).
    rewrite lstrip_id by done.
    change (String "c" ("onst " +:+ t +:+ stars n))
      with ("const " +:+ (t +:+ stars n)).
    apply rstrip_app; [by destruct Hw|].
    apply rstrip_no_space. by destruct Hw. }
  change ("const " +:+ t +:+ stars n)
    with ("const" +:+ String " " (t +:+ stars n)).
  rewrite split_char_app.
  2:{ intros c Hc'. simpl in Hc'.
      repeat (apply elem_of_cons in Hc' as [->|Hc']; [done|]).
      by apply elem_of_nil in Hc'. }
  rewrite word_split by done. simpl.
  replace (String.eqb (t +:+ stars n) "const") with false.
  2:{ symmetry. apply String.eqb_neq. by apply starred_ne. }
  by apply (convert_tail fuel true).
Qed.

Lemma pointer_depth_witness :
  identifier "GEOSGeometry" = true
  ∧ "GEOSGeometry" ≠ "const" ∧ "GEOSGeometry" ≠ "unsigned"
  ∧ convert_c_to_rust 0 "const GEOSGeometry**" = Ok "*const *const GEOSGeometry".
Proof.
  split; [reflexivity|]. split; [done|]. split; [done|].
  apply (pointer_depth 0 true "GEOSGeometry" 2); [reflexivity | done | done].
Defined.

Lemma unsigned_values u v :
  dict_get unsigned_inline_conv u = Some v → v = "c_uint" ∨ v = "c_uchar".
Proof.
  unfold unsigned_inline_conv, dict_get. intros H.
  repeat (case_match; [injection H as <-; auto|]). done.
Qed.

Lemma subst_loop_unsigned u rest :
  subst_loop ("unsigned" :: u :: rest)
  = (v ← of_option KeyError (dict_get unsigned_inline_conv u);
     r ← subst_loop rest;
     Ok (v :: r)).
Proof. done. Qed.

(** X3.  [unsigned] followed by a space and an identifier other than
    [const] translates to the entry of the identifier in the table of
    unsigned types, and raises [KeyError] when the table has none. *)
Theorem unsigned_token fuel u :
  identifier u = true → u ≠ "const" →
  convert_c_to_rust fuel ("unsigned " +:+ u)
  = match dict_get unsigned_inline_conv u with
    | Some v => Ok v
    | None => Raise KeyError
    end.
Proof.
  intros Hid Hc. pose proof (identifier_word u Hid) as Hw.
  unfold convert_c_to_rust.
  assert (Py.strip ("unsigned " +:+ u) = "unsigned " +:+ u) as ->.
  { unfold Py.strip.
    change ("unsigned " +:+ u) with (String "u" ("nsigned " +:+ u)).
    rewrite lstrip_id by done.
    change (String "u" ("nsigned " +:+ u)) with ("unsigned " +:+ u).
    apply rstrip_app; [by destruct Hw|].
    apply rstrip_no_space. by destruct Hw. }
  change ("unsigned " +:+ u) with ("unsigned" +:+ String " " u).
  rewrite split_char_app.
  2:{ intros c Hc'. simpl in Hc'.
      repeat (apply elem_of_cons in Hc' as [->|Hc']; [done|]).
      by apply elem_of_nil in Hc'. }
  rewrite word_split by done. cbn [const_loop].
  change (String.eqb "unsigned" "const") with false.
  apply String.eqb_neq in Hc as ->. cbn [app].
  change ["unsigned"; u] with (["unsigned"] ++ [u]).
  rewrite pointer_loop_eq, pop_app. cbn [mbind result_bind rbind of_option].
  rewrite identifier_no_suffix by (done || left).
  cbn [mbind result_bind rbind].
  rewrite marker_loop_eq, pop_app. cbn [mbind result_bind rbind of_option].
  rewrite identifier_no_suffix by (done || left).
  cbn [mbind result_bind rbind app]. rewrite subst_loop_unsigned.
  destruct (dict_get unsigned_inline_conv u) as [v|] eqn:E; [|done].
  by destruct (unsigned_values u v E) as [-> | ->].
Qed.

Lemma unsigned_token_witness :
  identifier "long" = true ∧ "long" ≠ "const"
  ∧ convert_c_to_rust 4 "unsigned long" = Raise KeyError.
Proof.
  split; [reflexivity|]. split; [done|].
  apply (unsigned_token 4 "long"); [reflexivity | done].
Defined.

(** X4.  A C type whose space-separated tokens are all [const] leaves the
    translator with no token, and it raises [IndexError] when it looks at
    the last one. *)
Theorem only_const_raises fuel c_type :
  Forall (λ t, t = "const") (Py.split (Py.strip c_type) " ") →
  convert_c_to_rust fuel c_type = Raise IndexError.
Proof.
  intros Hall. unfold convert_c_to_rust.
  pose proof (const_loop_snd 0 (Py.split (Py.strip c_type) " ") false []) as Hc.
  destruct (const_loop _ _ _ _) as [is_const ct]. simpl in Hc. subst ct.
  replace (filter (λ p, p ≠ "const") (Py.split (Py.strip c_type) " "))
    with (@nil string); [done|].
  symmetry. induction Hall as [|t l -> _ IH]; [done|].
  by rewrite filter_cons_False by (by intros ?).
Qed.

Lemma only_const_raises_witness :
  Forall (λ t, t = "const") (Py.split (Py.strip " const const ") " ")
  ∧ convert_c_to_rust 4 " const const " = Raise IndexError.
Proof.
  assert (Forall (λ t, t = "const") (Py.split (Py.strip " const const ") " "))
    as H by (repeat constructor).
  split; [exact H|]. by apply only_const_raises.
Defined.

(** X5.  A [const] that is not the first token is dropped without making
    the pointer constant: an identifier other than [const] and [unsigned],
    then [const] with a space on either side, then one or more stars
    translates to as many markers [*mut] followed by the substituted
    identifier. *)
Theorem later_const_ignored fuel t n :
  identifier t = true → t ≠ "const" → t ≠ "unsigned" →
  convert_c_to_rust fuel (t +:+ " const " +:+ stars (S n))
  = Ok (Py.join " " (replicate (S n) "*mut" ++ [substitute t])).
Proof.
  intros Hid Hc Hun. pose proof (identifier_word t Hid) as Hw.
  assert (word (stars (S n))) as Hs.
  { split; [done|]. intros c ->%stars_chars. done. }
  unfold convert_c_to_rust.
  assert (Py.strip (t +:+ " const " +:+ stars (S n))
          = t +:+ " const " +:+ stars (S n)) as ->.
  { unfold Py.strip. destruct Hw as [Hne Hsp].
    destruct t as [|a t]; [done|]. rewrite app_cons.
    rewrite lstrip_id by (apply Hsp; left). rewrite <- app_cons.
    rewrite <- string_app_assoc.
    apply rstrip_app; [done|]. apply rstrip_no_space. by destruct Hs. }
  change (t +:+ " const " +:+ stars (S n))
    with (t +:+ String " " ("const" +:+ String " " (stars (S n)))).
  rewrite split_char_app by (intros c; by apply word_no_blank).
  rewrite split_char_app.
  2:{ intros c Hc'. simpl in Hc'.
      repeat (apply elem_of_cons in Hc' as [->|Hc']; [done|]).
      by apply elem_of_nil in Hc'. }
  rewrite word_split by done.
  cbn [const_loop].
  apply String.eqb_neq in Hc as ->. cbn [String.eqb Ascii.eqb Bool.eqb].
  replace (String.eqb (stars (S n)) "const") with false by done.
  cbn [Nat.eqb app].
  change [t; stars (S n)] with ([t] ++ ["" +:+ stars (S n)]).
  rewrite (pointer_loop_stars _ false [t] "" (S n));
    [|by intros c ?%elem_of_nil | done |].
  2:{ rewrite last_len_app, app_empty, stars_length. lia. }
  cbn [mbind result_bind rbind].
  set (ms := replicate (S n) "*mut").
  rewrite marker_loop_eq. rewrite app_assoc, pop_app.
  cbn [mbind result_bind rbind of_option Py.endswith String.eqb orb].
  rewrite subst_loop_plain.
  2:{ intros [[Hin|Hin]%elem_of_app|Hin]%elem_of_app.
      - by apply elem_of_replicate in Hin as [? _].
      - by apply list_elem_of_singleton in Hin.
      - by apply list_elem_of_singleton in Hin. }
  cbn [mbind result_bind rbind]. rewrite !fmap_app. unfold ms.
  rewrite !fmap_replicate. cbn [fmap list_fmap].
  change (Py.strip (substitute "*mut")) with "*mut".
  change (Py.strip (substitute "")) with "".
  rewrite plain_strip by (by apply plain_substitute, identifier_plain).
  rewrite !filter_app. rewrite (filter_all _ (replicate (S n) "*mut")).
  2:{ apply Forall_replicate. simpl. lia. }
  rewrite (filter_all _ [substitute t]).
  2:{ apply Forall_singleton.
      assert (substitute t ≠ "") as Hne.
      { apply substitute_nonempty. by destruct Hw. }
      destruct (substitute t); [done | simpl; lia]. }
  rewrite filter_cons_False by (simpl; lia). rewrite filter_nil, app_nil_r.
  done.
Qed.

Lemma later_const_ignored_witness :
  identifier "char" = true ∧ "char" ≠ "const" ∧ "char" ≠ "unsigned"
  ∧ convert_c_to_rust 4 "char const *" = Ok "*mut c_char".
Proof.
  split; [reflexivity|]. split; [done|]. split; [done|].
  apply (later_const_ignored 4 "char" 0); [reflexivity | done | done].
Defined.

Section commas.

Implicit Types (a b s t : string) (c d : ascii) (args : list string).

Lemma split_char_sep d a b :
  Py.split (a +:+ String d b) (String d "")
  = Py.split a (String d "") ++ Py.split b (String d "").
Proof.
  induction a as [|c a IH].
  - rewrite app_empty, (split_char_eq d (String d b)), Ascii.eqb_refl. done.
  - rewrite app_cons, (split_char_eq d (String c _)),
      (split_char_eq d (String c a)), IH.
    destruct (Ascii.eqb c d); [done|].
    destruct (Py.split a (String d "")) eqn:E; [by apply split_char_ne in E|].
    done.
Qed.

Lemma for_each_app {A St} (l1 l2 : list A) (body : A → St → result St) st :
  for_each (l1 ++ l2) body st = for_each l1 body st ≫= for_each l2 body.
Proof.
  revert st. induction l1 as [|x l1 IH]; intros st; simpl; [done|].
  destruct (body x st) as [st'| |]; simpl; [apply IH | done | done].
Qed.

Lemma get_rust_args_sep a b args :
  get_rust_args (a +:+ String "," b) args
  = get_rust_args b (get_rust_args a args).
Proof. unfold get_rust_args. rewrite split_char_sep. apply foldl_app. Qed.

End commas.

(** X6.  Reading the C parameters of two texts joined by a comma is
    reading the first and then, if that did not raise, the second, into the
    same list. *)
Theorem get_c_args_comma a b args :
  get_c_args (a +:+ "," +:+ b) args = get_c_args a args ≫= get_c_args b.
Proof.
  unfold get_c_args. change (a +:+ "," +:+ b) with (a +:+ String "," b).
  rewrite split_char_sep. apply for_each_app.
Qed.

(** X7.  Reading the parameters of a binding from two texts joined by a
    comma is reading the first and then the second into the same list. *)
Theorem get_rust_args_comma a b args :
  get_rust_args (a +:+ "," +:+ b) args = get_rust_args b (get_rust_args a args).
Proof. apply (get_rust_args_sep a b args). Qed.

Section rust_params.

Implicit Types (n t s : string) (c : ascii) (args : list string).
Implicit Types (ps : list (string * string)).

Lemma ident_char_no_colon c : ident_char c = true → c ≠ ":"%char.
Proof.
  destruct c as [[] [] [] [] [] [] [] []]; vm_compute; intros H;
    try discriminate H; congruence.
Qed.

Lemma strip_blank s : Py.strip (String " " s) = Py.strip s.
Proof. done. Qed.

Lemma get_rust_args_part_blank s args :
  get_rust_args_part (String " " s) args = get_rust_args_part s args.
Proof. unfold get_rust_args_part. by rewrite strip_blank. Qed.

Lemma get_rust_args_blank s args :
  get_rust_args (String " " s) args = get_rust_args s args.
Proof.
  unfold get_rust_args. rewrite (split_char_eq "," (String " " s)).
  change (Ascii.eqb " " ",") with false. cbv iota.
  destruct (Py.split s ",") as [|h l] eqn:E; [by apply split_char_ne in E|].
  simpl. by rewrite get_rust_args_part_blank.
Qed.

Lemma rust_param_chars n t c :
  identifier n = true → rust_type t →
  c ∈ chars (rust_param (n, t)) → c ≠ ","%char.
Proof.
  intros Hn (_ & _ & _ & Ht). unfold rust_param. simpl.
  rewrite !chars_app, !elem_of_app. intros [Hc|[Hc|Hc]].
  - destruct (ident_char_plain c) as (_ & _ & ? & _);
      [by eapply identifier_chars | done].
  - simpl in Hc. repeat (apply elem_of_cons in Hc as [->|Hc]; [done|]).
    by apply elem_of_nil in Hc.
  - by intros ->.
Qed.

Lemma rust_param_part n t args :
  identifier n = true → rust_type t →
  get_rust_args_part (rust_param (n, t)) args = args ++ [t].
Proof.
  intros Hn (Hne & Hst & Hcolon & _). unfold rust_param. simpl.
  pose proof (identifier_word n Hn) as [Hnn Hsp].
  unfold get_rust_args_part.
  assert (Py.strip (n +:+ ": " +:+ t) = n +:+ ": " +:+ t) as ->.
  { unfold Py.strip. destruct n as [|a n]; [done|]. rewrite app_cons.
    rewrite lstrip_id by (apply Hsp; left). rewrite <- app_cons.
    rewrite <- string_app_assoc.
    apply rstrip_app; [done|]. by apply strip_fixed in Hst as [_ ?]. }
  replace (String.length (n +:+ ": " +:+ t) =? 0) with false.
  2:{ destruct n; [done|]. by rewrite app_cons. }
  change (n +:+ ": " +:+ t) with (n +:+ String ":" (String " " t)).
  rewrite split_char_app.
  2:{ intros c Hc. apply ident_char_no_colon. by eapply identifier_chars. }
  rewrite split_char_id.
  2:{ intros c [->|Hc]%elem_of_cons; [done|]. by intros ->. }
  simpl. rewrite strip_blank, Hst.
  rewrite filter_cons_True; [done|]. destruct t; [done | simpl; lia].
Qed.

Lemma rust_param_alone n t args :
  identifier n = true → rust_type t →
  get_rust_args (rust_param (n, t)) args = args ++ [t].
Proof.
  intros Hn Ht. unfold get_rust_args.
  rewrite split_char_id by (intros c; by apply rust_param_chars).
  simpl. by apply rust_param_part.
Qed.

End rust_params.

(** X8.  A parameter list of a binding written as [name: type] entries
    separated by a comma and a space is read back as the list of its
    types, in order, appended to the list given: the names are identifiers,
    the types hold no colon or comma and no white space at their ends. *)
Theorem rust_params_read_back ps args :
  Forall (λ p, identifier p.1 = true ∧ rust_type p.2) ps →
  get_rust_args (Py.join ", " (rust_param <$> ps)) args = args ++ ps.*2.
Proof.
  intros Hps. revert args.
  induction Hps as [|[n t] ps [Hn Ht] _ IH]; intros args.
  - simpl. by rewrite app_nil_r.
  - destruct ps as [|q ps].
    + simpl. by apply rust_param_alone.
    + change (Py.join ", " (rust_param <$> (n, t) :: q :: ps))
        with (rust_param (n, t)
              +:+ String "," (String " " (Py.join ", " (rust_param <$> q :: ps)))).
      rewrite get_rust_args_sep, get_rust_args_blank, rust_param_alone by done.
      rewrite IH. simpl. by rewrite <- app_assoc.
Qed.

Lemma rust_params_read_back_witness :
  Forall (λ p, identifier p.1 = true ∧ rust_type p.2)
    [("handle", "GEOSContextHandle_t"); ("g", "*const GEOSGeometry")]
  ∧ get_rust_args "handle: GEOSContextHandle_t, g: *const GEOSGeometry" []
    = ["GEOSContextHandle_t"; "*const GEOSGeometry"].
Proof.
  assert (∀ t, t ≠ "" → Py.strip t = t →
               bool_decide (":"%char ∉ chars t) = true →
               bool_decide (","%char ∉ chars t) = true → rust_type t) as Hty.
  { intros t ? ? ?%bool_decide_eq_true ?%bool_decide_eq_true. by repeat split. }
  assert (Forall (λ p, identifier p.1 = true ∧ rust_type p.2)
            [("handle", "GEOSContextHandle_t"); ("g", "*const GEOSGeometry")])
    as H.
  { repeat constructor; apply Hty; (done || vm_compute; reflexivity). }
  split; [exact H|]. exact (rust_params_read_back _ [] H).
Defined.

Section starred_names.

Implicit Types (ty name s : string) (c d : ascii).

Lemma star_loop_stars ty n name :
  Py.startswith name "*" = false →
  star_loop ty (stars n +:+ name) = (ty +:+ stars n, name).
Proof.
  intros Hname. revert ty. induction n as [|n IH]; intros ty.
  - simpl. rewrite app_empty, string_app_nil_r.
    destruct name as [|c name]; [done|]. cbn [star_loop]. by rewrite Hname.
  - change (stars (S n) +:+ name) with (String "*" (stars n +:+ name)).
    cbn [star_loop Py.startswith]. rewrite Ascii.eqb_refl, startswith_empty.
    rewrite IH, string_app_assoc. done.
Qed.

Lemma replace_absent s d old new :
  d ∉ chars s → Py.replace s (String d old) new = s.
Proof.
  unfold Py.replace. induction s as [|c s IH]; intros Hd; [done|].
  cbn [Py.replace_go Py.startswith].
  destruct (Ascii.eqb_spec c d) as [->|_]; [destruct Hd; left|].
  rewrite IH; [done|]. intros ?. apply Hd. by right.
Qed.

Lemma identifier_no_star name :
  identifier name = true → Py.startswith name "*" = false.
Proof.
  intros Hid. destruct name as [|c name]; [done|]. cbn [Py.startswith].
  destruct (Ascii.eqb_spec c "*") as [->|_]; [|done].
  destruct (ident_char_plain "*"%char) as (_ & _ & _ & ? & _); [|done].
  eapply identifier_chars; [exact Hid | left].
Qed.

Lemma starred_name_extracted ty name n args :
  identifier ty = true → identifier name = true →
  get_c_args (ty +:+ " " +:+ stars n +:+ name) args
  = Ok (args ++ [ty +:+ stars n]).
Proof.
  intros Hty Hname.
  pose proof (identifier_word ty Hty) as [Hty_ne Hty_sp].
  pose proof (identifier_word name Hname) as [Hn_ne Hn_sp].
  assert (∀ c, c ∈ chars (stars n +:+ name) →
            Py.isspace c = false ∧ c ≠ ","%char ∧ c ≠ "]"%char) as Hlast.
  { intros c. rewrite chars_app, elem_of_app. intros [Hc|Hc].
    - by apply stars_chars in Hc as ->.
    - destruct (ident_char_plain c) as (? & _ & ? & _ & ?);
        [by apply (identifier_chars name) | done]. }
  assert (stars n +:+ name ≠ "") as Hlast_ne.
  { intros H. apply (f_equal String.length) in H.
    rewrite string_length_app in H. destruct name; [done | simpl in H; lia]. }
  set (text := ty +:+ " " +:+ stars n +:+ name).
  assert (∀ c, c ∈ chars text → c ≠ ","%char) as Hcomma.
  { intros c. unfold text. rewrite !chars_app, !elem_of_app.
    intros [Hc|[Hc|[Hc|Hc]]].
    - destruct (ident_char_plain c) as (_ & _ & ? & _);
        [by apply (identifier_chars ty) | done].
    - simpl in Hc. apply list_elem_of_singleton in Hc as ->. done.
    - by apply stars_chars in Hc as ->.
    - destruct (ident_char_plain c) as (_ & _ & ? & _);
        [by apply (identifier_chars name) | done]. }
  unfold get_c_args. rewrite (split_char_id _ _ Hcomma). simpl.
  unfold get_c_args_part.
  assert (Py.strip text = text) as ->.
  { unfold Py.strip, text. destruct ty as [|a ty]; [done|]. rewrite app_cons.
    rewrite lstrip_id by (apply Hty_sp; left). rewrite <- app_cons.
    rewrite <- string_app_assoc.
    apply rstrip_app; [done|]. apply rstrip_no_space.
    intros c Hc. by apply Hlast. }
  replace (String.length text =? 0) with false.
  2:{ unfold text. destruct ty; [done|]. by rewrite app_cons. }
  unfold text.
  change (ty +:+ " " +:+ stars n +:+ name)
    with (ty +:+ String " " (stars n +:+ name)).
  rewrite split_char_app.
  2:{ intros c Hc ->. by specialize (Hty_sp _ Hc). }
  rewrite split_char_id.
  2:{ intros c Hc ->. by destruct (Hlast _ Hc). }
  simpl. rewrite array_loop_eq.
  destruct (Py.endswith (stars n +:+ name) "[]") eqn:E.
  { destruct (Hlast "]"%char) as (_ & _ & ?); [|done].
    eapply endswith_chars; [done|]. right. left. }
  simpl. apply length_pos_iff in Hlast_ne as Hpos.
  replace (String.length (stars n +:+ name) =? 0) with false.
  2:{ destruct (stars n +:+ name); [done | done]. }
  simpl. rewrite star_loop_stars by (by apply identifier_no_star).
  rewrite replace_absent.
  2:{ rewrite chars_app, elem_of_app. intros [Hc|Hc%stars_chars]; [|done].
      by specialize (Hty_sp _ Hc). }
  by rewrite (word_strip _ (starred_word ty n Hty)).
Qed.

End starred_names.

(** X9.  Take a C parameter made of a type that is one identifier other
    than [const] and [unsigned], a space, and a name that is an identifier
    with [n] stars attached in front of it, as in [double **out].  It is
    recorded as the type with the stars attached, and that translates to
    [n] markers [*mut] followed by the substituted type. *)
Theorem starred_parameter fuel ty name n :
  identifier ty = true → identifier name = true →
  ty ≠ "const" → ty ≠ "unsigned" →
  ∃ c_type,
    get_c_args (ty +:+ " " +:+ stars n +:+ name) [] = Ok [c_type]
    ∧ c_type = ty +:+ stars n
    ∧ convert_c_to_rust fuel c_type
      = Ok (Py.join " " (replicate n "*mut" ++ [substitute ty])).
Proof.
  intros Hty Hname Hc Hu. exists (ty +:+ stars n).
  split; [by apply starred_name_extracted|]. split; [done|].
  by apply convert_attached.
Qed.

Lemma starred_parameter_witness :
  identifier "int" = true ∧ identifier "size" = true
  ∧ "int" ≠ "const" ∧ "int" ≠ "unsigned"
  ∧ get_c_args "int **size" [] = Ok ["int**"]
  ∧ convert_c_to_rust 0 "int**" = Ok "*mut *mut c_int".
Proof.
  split; [reflexivity|]. split; [reflexivity|]. split; [done|]. split; [done|].
  destruct (starred_parameter 0 "int" "size" 2 eq_refl eq_refl)
    as (c_type & H1 & -> & H2); [done | done |].
  split; [exact H1 | exact H2].
Defined.

(** X10.  Lines in front of a header that hold no export marker, and
    lines in front of the bindings that hold no [' fn '], change neither
    the table, nor the scan of the bindings, nor the run. *)
Theorem leading_lines_skipped fuel pre_h pre_b header bindings :
  Forall (λ l, Py.contains l " GEOS_DLL " = false) pre_h →
  Forall (λ l, Py.contains l " fn " = false) pre_b →
  get_c_functions (pre_h ++ header) = get_c_functions header
  ∧ (∀ cf, get_rust_functions fuel (pre_b ++ bindings) cf
           = get_rust_functions fuel bindings cf)
  ∧ main fuel (pre_h ++ header) (pre_b ++ bindings) = main fuel header bindings.
Proof.
  intros Hh Hb.
  assert (get_c_functions (pre_h ++ header) = get_c_functions header) as Hc.
  { unfold get_c_functions. induction Hh as [|l pre Hl _ IH]; [done|].
    simpl. unfold c_body. by rewrite Hl. }
  assert (∀ cf, get_rust_functions fuel (pre_b ++ bindings) cf
                = get_rust_functions fuel bindings cf) as Hr.
  { intros cf. unfold get_rust_functions.
    induction Hb as [|l pre Hl _ IH]; [done|].
    simpl. unfold r_body. by rewrite Hl. }
  split; [done|]. split; [done|].
  unfold main. rewrite Hc. destruct (get_c_functions header); simpl; [|done..].
  by rewrite Hr.
Qed.

Lemma leading_lines_skipped_witness :
  Forall (λ l, Py.contains l " GEOS_DLL " = false) ["/* Exported functions */"]
  ∧ Forall (λ l, Py.contains l " fn " = false) ["// bindings"; "extern {"]
  ∧ main 4 header_one (["// bindings"; "extern {"] ++ bindings_match)
    = main 4 ["extern int GEOS_DLL GEOSFunc(const double * arg);"] bindings_match.
Proof.
  assert (Forall (λ l, Py.contains l " GEOS_DLL " = false)
            ["/* Exported functions */"]) as H1 by (repeat constructor).
  assert (Forall (λ l, Py.contains l " fn " = false)
            ["// bindings"; "extern {"]) as H2 by (repeat constructor).
  split; [exact H1|]. split; [exact H2|].
  exact (proj2 (proj2 (leading_lines_skipped 4 _ _
    ["extern int GEOS_DLL GEOSFunc(const double * arg);"] bindings_match H1 H2))).
Defined.

Section apart.

Implicit Types (st : rust_scan).

Lemma r_step_apart fuel s1 s2 : r_step fuel s1 s2 → apart s1.2 → apart s2.2.
Proof.
  intros (line & c' & _ & Hb) Ha. destruct s1 as [c1 st1], s2 as [c2 st2].
  simpl in *. apply r_body_Ok in Hb as [_ [[_ ->]|[_ [c3 Hd]]]]; [done|].
  apply r_declaration_Ok in Hd as (name & parts & _ & _ & Hd).
  destruct (rs_c_func st1 !! name) as [sig|] eqn:E.
  - destruct Hd as (same & out & _ & ->). intros x Hx. simpl in *.
    apply lookup_delete_None. right. by apply Ha.
  - subst st2. case_match; [|done]. intros x. simpl.
    intros [->%elem_of_singleton|Hx]%elem_of_union; [done | by apply Ha].
Qed.

Lemma r_steps_apart fuel s1 s2 :
  rtc (r_step fuel) s1 s2 → apart s1.2 → apart s2.2.
Proof.
  induction 1 as [|s1 s2 s3 H _ IH]; [done|].
  intros Ha. by eapply IH, r_step_apart.
Qed.

End apart.

(** X11.  In a run that reaches the report no name is listed both as not
    bound and as extra. *)
Theorem missing_and_extra_apart fuel header bindings r x :
  main fuel header bindings = Ok r →
  x ∈ not_bound r → x ∉ extra r.
Proof.
  intros (cf & st & _ & Hr & _ & -> & -> & _)%main_Ok.
  rewrite !elem_of_sort, elem_of_keys, elem_of_elements.
  intros [sig Hsig] Hx.
  apply r_loop_steps, r_steps_apart in Hr.
  - specialize (Hr x Hx). simpl in Hr. congruence.
  - intros y Hy. simpl in Hy. by apply elem_of_empty in Hy.
Qed.

Lemma missing_and_extra_apart_witness :
  main 4 header_one bindings_other = Ok report_missing
  ∧ "GEOSFunc" ∈ not_bound report_missing
  ∧ "GEOSFunc" ∉ extra report_missing.
Proof.
  assert (main 4 header_one bindings_other = Ok report_missing) as H
    by (vm_compute; reflexivity).
  assert ("GEOSFunc" ∈ not_bound report_missing) as Hin by left.
  split; [exact H|]. split; [exact Hin|].
  exact (missing_and_extra_apart 4 _ _ _ _ H Hin).
Defined.

(** X12.  In a run that reaches the report both lists are in ascending
    order and hold no name twice. *)
Theorem report_lists_ordered fuel header bindings r :
  main fuel header bindings = Ok r →
  Sorted String.le (not_bound r) ∧ NoDup (not_bound r)
  ∧ Sorted String.le (extra r) ∧ NoDup (extra r).
Proof.
  intros (cf & st & _ & _ & _ & -> & -> & _)%main_Ok.
  split_and!; try apply sort_sorted; unfold Py.sort;
    rewrite merge_sort_Permutation; [apply NoDup_keys | apply NoDup_elements].
Qed.

Lemma report_lists_ordered_witness :
  main 4 header_long [] = Ok {| errored := false;
                                not_bound := ["GEOSBuffer"; "GEOSFree"];
                                extra := [];
                                stdout := ["==> Not bound functions:";
                                           "GEOSBuffer"; "GEOSFree"; "";
                                           "==> Extra (???) rust functions:"];
                                status := 1 |}
  ∧ Sorted String.le ["GEOSBuffer"; "GEOSFree"].
Proof.
  split; [vm_compute; reflexivity|].
  refine (proj1 (report_lists_ordered 4 header_long []
                   {| errored := false;
                      not_bound := ["GEOSBuffer"; "GEOSFree"];
                      extra := [];
                      stdout := ["==> Not bound functions:";
                                 "GEOSBuffer"; "GEOSFree"; "";
                                 "==> Extra (???) rust functions:"];
                      status := 1 |} _)).
  vm_compute; reflexivity.
Defined.

Section split_text.

Implicit Types (s pre sep x : string) (c d : ascii).

Lemma split_not_contains s sep :
  Py.contains s sep = false → Py.split s sep = [s].
Proof.
  unfold Py.split. induction s as [|c s IH]; cbn [Py.contains Py.split_go];
    [done|].
  intros [Hs Hc]%orb_false_iff. by rewrite Hs, IH.
Qed.

Lemma split_go_skip sep x s :
  Py.split_go sep (String.length x) (x +:+ s) = Py.split_go sep 0 s.
Proof.
  induction x as [|c x IH]; [done|]. rewrite app_cons. simpl. apply IH.
Qed.

Lemma split_first_absent s d sep :
  d ∉ chars s → Py.split s (String d sep) = [s].
Proof.
  unfold Py.split. induction s as [|c s IH]; intros Hd; [done|].
  cbn [Py.split_go Py.startswith].
  destruct (Ascii.eqb_spec c d) as [->|_]; [destruct Hd; left|].
  rewrite IH; [done|]. intros ?. apply Hd. by right.
Qed.

Lemma split_at pre d sep s :
  d ∉ chars pre →
  Py.split (pre +:+ String d sep +:+ s) (String d sep)
  = pre :: Py.split s (String d sep).
Proof.
  unfold Py.split. induction pre as [|c pre IH]; intros Hd.
  - rewrite app_empty. change (String d sep +:+ s) with (String d (sep +:+ s)).
    cbn [Py.split_go].
    change (String d (sep +:+ s)) with (String d sep +:+ s).
    rewrite startswith_app.
    replace (String.length (String d sep) - 1) with (String.length sep)
      by (simpl; lia).
    by rewrite split_go_skip.
  - rewrite app_cons. cbn [Py.split_go Py.startswith].
    destruct (Ascii.eqb_spec c d) as [->|_]; [destruct Hd; left|].
    rewrite IH; [done|]. intros ?. apply Hd. by right.
Qed.

Lemma contains_app pre sep s : Py.contains (pre +:+ sep +:+ s) sep = true.
Proof.
  induction pre as [|c pre IH].
  - rewrite app_empty. destruct (sep +:+ s) eqn:E; cbn [Py.contains];
      rewrite <- E, startswith_app; done.
  - rewrite app_cons. cbn [Py.contains]. rewrite IH. apply orb_true_r.
Qed.

End split_text.

(** X13.  From a line that ends in [') -> '], a type and a semicolon, the
    type is read back as the return type, provided the text before holds no
    closing parenthesis and the type holds neither a closing parenthesis
    nor a semicolon. *)
Theorem return_type_read_back pre ty :
  ")"%char ∉ chars pre → ")"%char ∉ chars ty → ";"%char ∉ chars ty →
  get_rust_ret_type (pre +:+ ") -> " +:+ ty +:+ ";") = Ok ty.
Proof.
  intros Hpre Hty Hsemi. unfold get_rust_ret_type.
  rewrite contains_app. simpl negb. cbv iota.
  change (") -> " +:+ ty +:+ ";") with (String ")" " -> " +:+ (ty +:+ ";")).
  rewrite split_at by done.
  rewrite split_first_absent.
  2:{ rewrite chars_app, elem_of_app. intros [?|Hc]; [done|]. simpl in Hc.
      apply list_elem_of_singleton in Hc. done. }
  simpl. change (ty +:+ ";") with (ty +:+ String ";" "").
  rewrite split_char_app; [done|]. intros c Hc ->. done.
Qed.

Lemma return_type_read_back_witness :
  (")"%char ∉ chars "    pub fn GEOSArea(g: *const GEOSGeometry")
  ∧ (")"%char ∉ chars "c_int") ∧ (";"%char ∉ chars "c_int")
  ∧ get_rust_ret_type "    pub fn GEOSArea(g: *const GEOSGeometry) -> c_int;"
    = Ok "c_int".
Proof.
  assert (∀ c s, bool_decide (c ∉ chars s) = true → c ∉ chars s) as Hd.
  { intros c s. apply bool_decide_eq_true. }
  assert (")"%char ∉ chars "    pub fn GEOSArea(g: *const GEOSGeometry") as H1
    by (apply Hd; vm_compute; reflexivity).
  assert (")"%char ∉ chars "c_int") as H2 by (apply Hd; vm_compute; reflexivity).
  assert (";"%char ∉ chars "c_int") as H3 by (apply Hd; vm_compute; reflexivity).
  split; [exact H1|]. split; [exact H2|]. split; [exact H3|].
  exact (return_type_read_back _ _ H1 H2 H3).
Defined.

Lemma index_split_0 s sep : ∃ x, index (Py.split s sep) 0 = Ok x.
Proof.
  pose proof (split_go_ne sep 0 s) as H. unfold Py.split.
  destruct (Py.split_go sep 0 s) as [|x l]; [done|]. by exists x.
Qed.

(** X14.  A line with the export marker splits at it into at least two
    pieces.  Its head is read if the first piece holds ['extern '] and the
    second an opening parenthesis; otherwise reading it raises
    [IndexError]. *)
Theorem c_head_outcome line :
  Py.contains line " GEOS_DLL " = true →
  ∃ before after rest,
    Py.split line " GEOS_DLL " = before :: after :: rest
    ∧ if Py.contains before "extern " && Py.contains after "("
      then ∃ ret name text, c_head line = Ok (ret, name, text)
      else c_head line = Raise IndexError.
Proof.
  intros Hm. apply split_contains in Hm as Hlen; [|done].
  destruct (Py.split line " GEOS_DLL ") as [|before [|after rest]] eqn:Es;
    simpl in Hlen; try lia.
  exists before, after, rest. split; [done|].
  unfold c_head. rewrite Es. cbn [index of_option lookup list_lookup mbind
    result_bind rbind].
  destruct (Py.contains before "extern ") eqn:Ee.
  - apply split_contains in Ee as He; [|done].
    destruct (Py.split before "extern ") as [|e0 [|e1 l]]; simpl in He; try lia.
    cbn [index of_option lookup list_lookup mbind result_bind rbind].
    destruct (index_split_0 after "(") as [func_name Hf].
    unfold index in Hf. unfold index. 
    destruct (Py.split after "(") as [|p0 ps] eqn:Ep; [done|].
    simpl in Hf. injection Hf as ->.
    cbn [of_option lookup list_lookup mbind result_bind rbind].
    destruct (star_loop (Py.strip e1) func_name) as [ret name].
    destruct (Py.contains after "(") eqn:Ea; simpl andb; cbv iota.
    + apply split_contains in Ea; [|done]. rewrite Ep in Ea.
      destruct ps as [|text ps]; simpl in Ea; [lia|].
      by exists ret, name, text.
    + apply split_not_contains in Ea. rewrite Ep in Ea.
      by injection Ea as _ ->.
  - apply split_not_contains in Ee. rewrite Ee. done.
Qed.

Lemma c_head_outcome_witness :
  Py.contains "/* the GEOS_DLL marker */" " GEOS_DLL " = true
  ∧ c_head "/* the GEOS_DLL marker */" = Raise IndexError.
Proof.
  split; [reflexivity|].
  destruct (c_head_outcome "/* the GEOS_DLL marker */" eq_refl)
    as (before & after & rest & Hs & H).
  vm_compute in Hs. injection Hs as <- <- <-. exact H.
Defined.

Lemma r_head_total line :
  Py.contains line " fn " = true → ∃ name parts, r_head line = Ok (name, parts).
Proof.
  intros Hm. apply split_contains in Hm; [|done]. unfold r_head.
  destruct (Py.split line " fn ") as [|x [|after rest]]; simpl in Hm; try lia.
  cbn [index of_option lookup list_lookup mbind result_bind rbind].
  destruct (index_split_0 after "(") as [func_name ->].
  cbn [mbind result_bind rbind]. eauto.
Qed.

(** X15.  A line with [' fn '] always yields a name.  If the table does
    not hold the name, the turn of the scan does not raise, moves on by one
    line, leaves the table and the count of errors alone, and adds the name
    to the set unless it is empty. *)
Theorem unknown_name_turn fuel line content' st :
  Py.contains line " fn " = true →
  ∃ name parts,
    r_head line = Ok (name, parts)
    ∧ (rs_c_func st !! name = None →
       r_body fuel line content' st
       = Ok (content',
             if 0 <? String.length name
             then {| rs_c_func := rs_c_func st;
                     rs_functions := {[ name ]} ∪ rs_functions st;
                     rs_errors := rs_errors st;
                     rs_printed := rs_printed st |}
             else st)).
Proof.
  intros Hm. destruct (r_head_total line Hm) as (name & parts & Hh).
  exists name, parts. split; [done|]. intros Hno.
  unfold r_body, r_declaration. rewrite Hm, Hh. simpl. by rewrite Hno.
Qed.

Lemma unknown_name_turn_witness :
  Py.contains "    pub fn GEOSOther(" " fn " = true
  ∧ r_body 0 "    pub fn GEOSOther(" [] (r_start table_one)
    = Ok ([], {| rs_c_func := table_one;
                 rs_functions := {[ "GEOSOther" ]} ∪ ∅;
                 rs_errors := 0;
                 rs_printed := [] |}).
Proof.
  split; [reflexivity|].
  destruct (unknown_name_turn 0 "    pub fn GEOSOther(" [] (r_start table_one)
              eq_refl) as (name & parts & Hh & H).
  vm_compute in Hh. injection Hh as <- <-. apply H. vm_compute; reflexivity.
Defined.

Lemma r_continuation_open content args :
  Forall (λ l, Py.endswith l ");" = false ∧ Py.contains l ") -> " = false)
    content →
  ∃ args', r_continuation content args = Ok (args', []).
Proof.
  intros H. revert args. induction H as [|l content [He Hc] _ IH]; intros args.
  - by exists args.
  - simpl. destruct (index_split_0 (Py.strip l) ")") as [text ->]. simpl.
    rewrite He, Hc. simpl. apply IH.
Qed.

(** X16.  A binding of a name of the table that is not closed before the
    end of the file (neither its line nor any later one ends in [');'] or
    holds [') -> ']) raises [IndexError] when the return type is looked up
    past the last line, and so does the scan from that line. *)
Theorem unclosed_binding_raises fuel line content' st name parts :
  Py.contains line " fn " = true →
  r_head line = Ok (name, parts) →
  is_Some (rs_c_func st !! name) →
  Py.endswith line ");" = false →
  Py.contains line ") -> " = false →
  Forall (λ l, Py.endswith l ");" = false ∧ Py.contains l ") -> " = false)
    content' →
  r_body fuel line content' st = Raise IndexError
  ∧ ∀ n, r_loop fuel (S n) (line :: content') st = Raise IndexError.
Proof.
  intros Hm Hh [sig Hin] He Hc Hopen.
  assert (r_body fuel line content' st = Raise IndexError) as Hb.
  { unfold r_body, r_declaration. rewrite Hm, Hh. simpl. rewrite Hin.
    rewrite He, Hc. cbn [negb andb drop].
    destruct (parts !! 1) as [text|] eqn:Ep;
      change (index parts 1) with (of_option IndexError (parts !! 1));
      rewrite Ep; simpl; [|done].
    destruct (index_split_0 text ")") as [text' ->]. simpl.
    change (drop 0 content') with content'.
    destruct (r_continuation_open content'
                (get_rust_args (Py.strip text') []) Hopen) as [args' ->].
    done. }
  split; [done|]. intros n. simpl. by rewrite Hb.
Qed.

Lemma unclosed_binding_raises_witness :
  Py.contains "    pub fn GEOSFunc(" " fn " = true
  ∧ is_Some (rs_c_func (r_start table_one) !! "GEOSFunc")
  ∧ get_rust_functions 4 ["    pub fn GEOSFunc("; "        arg: *const c_double,"]
      table_one = Raise IndexError.
Proof.
  split; [reflexivity|]. split; [by eexists|].
  refine (proj2 (unclosed_binding_raises 4 "    pub fn GEOSFunc("
                   ["        arg: *const c_double,"] (r_start table_one)
                   "GEOSFunc" ["GEOSFunc"; ""] _ _ _ _ _ _) 1).
  - reflexivity.
  - vm_compute; reflexivity.
  - by eexists.
  - reflexivity.
  - reflexivity.
  - repeat constructor.
Defined.

Lemma c_steps_value s1 s2 name :
  rtc c_step s1 s2 →
  Forall (λ l, c_declares l name = false) s1.1 →
  s2.2 !! name = s1.2 !! name.
Proof.
  intros Hr. induction Hr as [|s1 s2 s3 (line & c' & Hl & Hb) _ IH]; [done|].
  intros Hno. destruct s1 as [c1 fs1], s2 as [c2 fs2]. simpl in *. subst c1.
  apply Forall_cons in Hno as [Hline Hrest].
  apply c_body_Ok in Hb as [Hs Hb]. rewrite IH.
  - destruct Hb as [[_ ->]|[Hm (ret & raw & text & args & Hh & ->)]]; [done|].
    unfold c_declares in Hline. rewrite Hm, Hh in Hline. simpl in Hline.
    apply String.eqb_neq in Hline. unfold c_record. case_match; [|done].
    by rewrite lookup_insert_ne.
  - destruct Hs as [pre ->]. by apply Forall_app in Hrest as [_ ?].
Qed.

(** X17.  When the scan of the header comes to a declaration whose name
    is not empty and not on the deny-list, and no line scanned after it
    declares the same name, then the table returned holds for the name
    what this declaration recorded, whatever the table held for it
    before. *)
Theorem last_declaration_kept header line content fs c2 fs2 ret raw text cf :
  rtc c_step (header, ∅) (line :: content, fs) →
  Py.contains line " GEOS_DLL " = true →
  c_head line = Ok (ret, raw, text) →
  Py.strip raw ≠ "" →
  Py.strip raw ∉ TO_IGNORE →
  c_body line content fs = Ok (c2, fs2) →
  Forall (λ l, c_declares l (Py.strip raw) = false) c2 →
  get_c_functions header = Ok cf →
  ∃ args, fs2 !! Py.strip raw = Some (args, ret)
          ∧ cf !! Py.strip raw = Some (args, ret).
Proof.
  intros Hreach Hm Hh Hne Hig Hb Hno Hc.
  destruct (c_loop_reach _ _ _ _ _ _ Hreach Hc) as [[|m] Hloop];
    simpl in Hloop; [done|].
  rewrite Hb in Hloop. simpl in Hloop.
  apply c_body_Ok in Hb as [_ [[Hm' _]|[_ (ret' & raw' & text' & args & Hh' & ->)]]];
    [congruence|].
  rewrite Hh in Hh'. injection Hh' as <- <- <-.
  exists args.
  assert (c_record ret raw args fs !! Py.strip raw = Some (args, ret)) as Hin.
  { unfold c_record. apply length_pos_iff in Hne as ->.
    rewrite bool_decide_eq_true_2 by done. simpl. apply lookup_insert_eq. }
  split; [done|].
  apply c_loop_steps in Hloop.
  pose proof (c_steps_value _ _ (Py.strip raw) Hloop Hno) as E.
  simpl in E. by rewrite E.
Qed.

Lemma last_declaration_kept_witness :
  ∃ args, (<["GEOSFunc" := (["double"; "int"], "void")]>
             (<["GEOSFunc" := (["int"], "int")]> ∅) : gmap string c_sig)
            !! Py.strip "GEOSFunc" = Some (args, "void")
          ∧ (<["GEOSFunc" := (["double"; "int"], "void")]> ∅ : gmap string c_sig)
              !! Py.strip "GEOSFunc" = Some (args, "void").
Proof.
  apply (last_declaration_kept header_again
           "extern void GEOS_DLL GEOSFunc(double b, int c);" []
           (<["GEOSFunc" := (["int"], "int")]> ∅) []
           _ "void" "GEOSFunc" "double b, int c);" _).
  - eapply rtc_l; [|apply rtc_refl].
    exists "extern int GEOS_DLL GEOSFunc(int a);",
      ["extern void GEOS_DLL GEOSFunc(double b, int c);"].
    split; [reflexivity|]. vm_compute. reflexivity.
  - reflexivity.
  - reflexivity.
  - vm_compute. discriminate.
  - vm_compute. intros H. repeat (apply elem_of_cons in H as [H|H]; [discriminate|]).
    by apply elem_of_nil in H.
  - vm_compute. reflexivity.
  - constructor.
  - vm_compute. reflexivity.
Defined.

Section arrays.

Implicit Types (ty name s p t : string) (c d : ascii).

Lemma brackets_snoc n : brackets (S n) = brackets n +:+ "[]".
Proof.
  induction n as [|n IH]; [done|].
  change (String "[" (String "]" (brackets (S n)))
          = String "[" (String "]" (brackets n +:+ "[]"))).
  by rewrite <- IH.
Qed.

Lemma brackets_chars n c :
  c ∈ chars (brackets n) → c = "["%char ∨ c = "]"%char.
Proof.
  induction n as [|n IH]; simpl; [by intros ?%elem_of_nil|].
  intros [->|[->|?]%elem_of_cons]%elem_of_cons; auto.
Qed.

Lemma brackets_length n : String.length (brackets n) = 2 * n.
Proof. induction n as [|n IH]; simpl; [done|]. rewrite IH. lia. Qed.

Lemma join_markers x n :
  Py.join " " (x :: replicate n "*const") = x +:+ markers n.
Proof.
  revert x. induction n as [|n IH]; intros x.
  - simpl. by rewrite string_app_nil_r.
  - cbn [replicate]. change (Py.join " " (x :: "*const" :: replicate n "*const"))
      with (x +:+ " " +:+ Py.join " " ("*const" :: replicate n "*const")).
    by rewrite IH.
Qed.

Lemma named_array_chars name n c :
  identifier name = true → c ∈ chars (name +:+ brackets n) →
  Py.isspace c = false ∧ c ≠ ","%char ∧ c ≠ " "%char.
Proof.
  intros Hid. rewrite chars_app, elem_of_app. intros [Hc|Hc].
  - destruct (ident_char_plain c) as (? & ? & ? & _);
      [by apply (identifier_chars name) | done].
  - by apply brackets_chars in Hc as [->| ->].
Qed.

Lemma array_loop_brackets f p name m :
  identifier name = true → m ≤ f →
  array_loop f p (name +:+ brackets m) = Ok (p +:+ markers m, name).
Proof.
  intros Hid. revert f p. induction m as [|m IH]; intros f p Hf.
  - simpl. rewrite !string_app_nil_r, array_loop_eq.
    destruct (Py.endswith name "[]") eqn:E; [|done].
    destruct (ident_char_plain "]"%char) as (_ & _ & _ & _ & ?); [|done].
    apply (identifier_chars name); [done|].
    eapply endswith_chars; [done|]. right. left.
  - rewrite brackets_snoc, <- string_app_assoc, array_loop_eq, endswith_app.
    destruct f as [|f]; [lia|].
    rewrite (drop_last_app _ "[]").
    rewrite strip_no_space.
    2:{ intros c Hc. by destruct (named_array_chars name m c). }
    rewrite IH by lia. by rewrite string_app_assoc.
Qed.

Lemma replace_word_app s d old new t :
  d ∉ chars s →
  Py.replace (s +:+ t) (String d old) new
  = s +:+ Py.replace t (String d old) new.
Proof.
  unfold Py.replace. induction s as [|c s IH]; intros Hd.
  - by rewrite !app_empty.
  - rewrite !app_cons. cbn [Py.replace_go Py.startswith].
    destruct (Ascii.eqb_spec c d) as [->|_]; [destruct Hd; left|].
    rewrite IH; [done|]. intros ?. apply Hd. by right.
Qed.

Lemma replace_markers n :
  Py.replace (markers n) " * const" " *const" = markers n.
Proof.
  unfold Py.replace. induction n as [|n IH]; [done|].
  change (markers (S n))
    with (String " " (String "*" (String "c" (String "o" (String "n"
            (String "s" (String "t" (markers n)))))))).
  simpl. by rewrite IH.
Qed.

Lemma markers_snoc n : markers (S n) = markers n +:+ " *const".
Proof.
  induction n as [|n IH]; [done|].
  change (" *const" +:+ markers (S n)
          = (" *const" +:+ markers n) +:+ " *const").
  by rewrite string_app_assoc, <- IH.
Qed.

Lemma strip_markers ty n :
  word ty → Py.strip (ty +:+ markers n) = ty +:+ markers n.
Proof.
  intros Hw. destruct n as [|n].
  - simpl. rewrite string_app_nil_r. by apply word_strip.
  - destruct Hw as [Hne Hsp]. unfold Py.strip.
    destruct ty as [|a ty]; [done|].
    rewrite app_cons, lstrip_id by (apply Hsp; left).
    rewrite <- app_cons, markers_snoc.
    change (markers n +:+ " *const") with (markers n +:+ " " +:+ "*const").
    rewrite <- !string_app_assoc. by apply rstrip_app.
Qed.

Lemma array_name_extracted ty name n args :
  identifier ty = true → identifier name = true →
  get_c_args (ty +:+ " " +:+ name +:+ brackets n) args
  = Ok (args ++ [Py.join " " (ty :: replicate n "*const")]).
Proof.
  intros Hty Hname.
  pose proof (identifier_word ty Hty) as [Hty_ne Hty_sp].
  pose proof (identifier_word name Hname) as [Hn_ne Hn_sp].
  pose proof (named_array_chars name n) as Hlast.
  rewrite join_markers.
  set (text := ty +:+ " " +:+ name +:+ brackets n).
  assert (∀ c, c ∈ chars text → c ≠ ","%char) as Hcomma.
  { intros c. unfold text. rewrite chars_app, elem_of_app.
    intros [Hc|Hc].
    - destruct (ident_char_plain c) as (_ & _ & ? & _);
        [by apply (identifier_chars ty) | done].
    - change (" " +:+ name +:+ brackets n)
        with (String " " (name +:+ brackets n)) in Hc.
      simpl in Hc. apply elem_of_cons in Hc as [->|Hc]; [done|].
      by destruct (Hlast c Hname Hc) as (_ & ? & _). }
  unfold get_c_args. rewrite (split_char_id _ _ Hcomma). simpl.
  unfold get_c_args_part.
  assert (Py.strip text = text) as ->.
  { unfold Py.strip, text. destruct ty as [|a ty]; [done|]. rewrite app_cons.
    rewrite lstrip_id by (apply Hty_sp; left). rewrite <- app_cons.
    rewrite <- string_app_assoc.
    apply rstrip_app.
    - destruct name; [done|]. by rewrite app_cons.
    - apply rstrip_no_space. intros c Hc. by destruct (Hlast c Hname Hc). }
  replace (String.length text =? 0) with false.
  2:{ unfold text. destruct ty; [done|]. by rewrite app_cons. }
  unfold text.
  change (ty +:+ " " +:+ name +:+ brackets n)
    with (ty +:+ String " " (name +:+ brackets n)).
  rewrite split_char_app.
  2:{ intros c Hc ->. by specialize (Hty_sp _ Hc). }
  rewrite split_char_id.
  2:{ intros c Hc. by destruct (Hlast c Hname Hc) as (_ & _ & ?). }
  simpl. rewrite array_loop_brackets.
  2: done.
  2:{ rewrite string_length_app, brackets_length. lia. }
  simpl. replace (String.length name =? 0) with false.
  2:{ destruct name; [done | done]. }
  simpl. rewrite (star_loop_stars _ 0 name) by (by apply identifier_no_star).
  simpl stars. rewrite string_app_nil_r.
  rewrite replace_word_app.
  2:{ intros Hc. by specialize (Hty_sp _ Hc). }
  rewrite replace_markers.
  by rewrite strip_markers by (by apply identifier_word).
Qed.

End arrays.

Section marker_tokens.

Implicit Types (ty t : string) (l : list string).

Lemma pointer_loop_done f b l x :
  Py.endswith x "*" = false → pointer_loop f b (l ++ [x]) = Ok (l ++ [x]).
Proof. intros Hx. rewrite pointer_loop_eq, pop_app. simpl. by rewrite Hx. Qed.

Lemma marker_loop_done f l x :
  Py.endswith x "*const" = false → marker_loop f (l ++ [x]) = Ok (l ++ [x]).
Proof. intros Hx. rewrite marker_loop_eq, pop_app. simpl. by rewrite Hx. Qed.

Lemma marker_loop_moves f pre ty m :
  identifier ty = true → m ≤ f →
  marker_loop f (pre ++ [ty] ++ replicate m "*const")
  = Ok (replicate m "*const" ++ pre ++ [ty]).
Proof.
  intros Hid. revert f pre. induction m as [|m IH]; intros f pre Hf.
  - simpl. apply marker_loop_done. apply identifier_no_suffix; [done | left].
  - destruct f as [|f]; [lia|].
    rewrite replicate_S_end, !app_assoc, marker_loop_eq, pop_app.
    simpl. rewrite <- app_assoc, app_comm_cons.
    rewrite (IH f ("*const" :: pre)) by lia.
    by rewrite <- !app_assoc.
Qed.

Lemma markers_tokens n :
  Forall (λ u, word u ∧ u ≠ "const" ∧ u ≠ "unsigned") (replicate n "*const").
Proof.
  apply Forall_replicate. split; [|done]. split; [done|].
  intros c Hc. simpl in Hc.
  repeat (apply elem_of_cons in Hc as [->|Hc]; [done|]).
  by apply elem_of_nil in Hc.
Qed.

Lemma convert_markers fuel ty n :
  identifier ty = true → ty ≠ "const" → ty ≠ "unsigned" → n ≤ fuel →
  convert_c_to_rust fuel (Py.join " " (ty :: replicate n "*const"))
  = Ok (Py.join " " (replicate n "*const" ++ [substitute ty])).
Proof.
  intros Hid Hc Hun Hf. unfold convert_c_to_rust.
  assert (Forall (λ u, word u ∧ u ≠ "const" ∧ u ≠ "unsigned")
            (ty :: replicate n "*const")) as HT.
  { constructor; [|by apply markers_tokens].
    split; [by apply identifier_word | done]. }
  set (T := ty :: replicate n "*const") in *.
  rewrite strip_join_fixed.
  2:{ eapply Forall_impl; [exact HT|]. intros u [Hw _]. split.
      - by destruct Hw. - by apply word_strip. }
  rewrite split_join.
  2: done.
  2:{ intros t c Ht Hcs. rewrite Forall_forall in HT.
      destruct (HT t Ht) as [Hw _]. by apply (word_no_blank t). }
  destruct (const_loop 0 T false []) as [b ct] eqn:E.
  assert (ct = T) as ->.
  { apply (f_equal snd) in E. rewrite const_loop_snd in E. simpl in E.
    rewrite <- E. apply filter_all. eapply Forall_impl; [exact HT|].
    by intros u (_ & ? & _). }
  assert (pointer_loop (last_len T) b T = Ok T) as ->.
  { unfold T. destruct n as [|n].
    - apply (pointer_loop_done _ _ []).
      apply identifier_no_suffix; [done | left].
    - rewrite replicate_S_end, app_comm_cons.
      by apply pointer_loop_done. }
  pose proof (marker_loop_moves fuel [] ty n Hid Hf) as Hm.
  simpl in Hm. simpl. unfold T. rewrite Hm. simpl.
  pose proof (finish_markers 0 true n ty Hid Hun) as Hfin.
  rewrite marker_loop_done in Hfin
    by (apply identifier_no_suffix; [done | left]).
  exact Hfin.
Qed.

End marker_tokens.

(** X18.  Take a C parameter made of a type that is one identifier other
    than [const] and [unsigned], a space, and a name that is an identifier
    followed by [n] pairs of brackets.  It is recorded as the type followed
    by [n] markers [*const], and with fuel [n] or more that translates to
    the [n] markers followed by the substituted type. *)
Theorem array_parameter fuel ty name n :
  identifier ty = true → identifier name = true →
  ty ≠ "const" → ty ≠ "unsigned" → n ≤ fuel →
  ∃ c_type,
    get_c_args (ty +:+ " " +:+ name +:+ brackets n) [] = Ok [c_type]
    ∧ c_type = Py.join " " (ty :: replicate n "*const")
    ∧ convert_c_to_rust fuel c_type
      = Ok (Py.join " " (replicate n "*const" ++ [substitute ty])).
Proof.
  intros Hty Hname Hc Hun Hf. eexists. split; [|split; [reflexivity|]].
  - by apply (array_name_extracted ty name n []).
  - by apply convert_markers.
Qed.

Lemma array_parameter_witness :
  ∃ c_type,
    get_c_args ("double" +:+ " " +:+ "grid" +:+ brackets 2) [] = Ok [c_type]
    ∧ c_type = Py.join " " ("double" :: replicate 2 "*const")
    ∧ convert_c_to_rust 2 c_type
      = Ok (Py.join " " (replicate 2 "*const" ++ [substitute "double"])).
Proof.
  apply (array_parameter 2 "double" "grid" 2);
    [reflexivity | reflexivity | discriminate | discriminate | lia].
Defined.

Section closing.

Implicit Types (ty name x p q t s : string) (c : ascii).





End closing.



(** X20.  A parameter that is one word (no white space or comma, no
    leading star, no trailing brackets), such as [void] or [int], is taken
    for a name: the type recorded is the empty text. *)
Theorem unnamed_parameter w args :
  word w → ","%char ∉ chars w →
  Py.startswith w "*" = false → Py.endswith w "[]" = false →
  get_c_args w args = Ok (args ++ [""]).
Proof.
  intros Hw Hcomma Hstar Harr.
  unfold get_c_args. rewrite split_char_id by (by intros c Hc ->).
  simpl. unfold get_c_args_part.
  rewrite (word_strip w Hw).
  replace (String.length w =? 0) with false
    by (destruct Hw as [Hne _]; by destruct w).
  rewrite (word_split w Hw). simpl.
  rewrite array_loop_eq, Harr. simpl.
  replace (String.length w =? 0) with false
    by (destruct Hw as [Hne _]; by destruct w).
  simpl. rewrite (star_loop_stars _ 0 w Hstar). done.
Qed.

Lemma unnamed_parameter_witness :
  get_c_args "void" ["int"] = Ok (["int"] ++ [""]).
Proof.
  apply (unnamed_parameter "void" ["int"]).
  - split; [done|]. intros c Hc. simpl in Hc.
    repeat (apply elem_of_cons in Hc as [->|Hc]; [done|]).
    by apply elem_of_nil in Hc.
  - intros Hc. simpl in Hc.
    repeat (apply elem_of_cons in Hc as [?|Hc]; [done|]).
    by apply elem_of_nil in Hc.
  - reflexivity.
  - reflexivity.
Defined.
